(** * DocuQuery: a shallow embedding of the chunker, the FAISS store
    manager and the LLM answer handler (src/utils/*.py). *)

From Stdlib Require Import Ascii String DecimalString ZArith QArith Lqa Sorted.
From stdpp Require Import base list gmap strings.

Open Scope list_scope.
Open Scope Z_scope.

(* ------------------------------------------------------------------ *)
(** ** Python values *)
(* ------------------------------------------------------------------ *)

(** A Python [str] is a sequence of characters; one [ascii] per code
    point (the model covers the code points below 256, Latin-1), so
    [len] is [length], slicing is [take]/[drop], [+] is [++]. *)
Abbreviation pystr := (list ascii).

Definition S_ (s : string) : pystr := list_ascii_of_string s.

(** The values that can sit in a metadata dict. A Python [float] is
    kept as an exact rational. *)
Inductive pyval :=
| PInt (z : Z)
| PFloat (q : Q)
| PStr (s : pystr)
| PBool (b : bool)
| PNone.

(** A dict keyed by strings. Python dict equality ignores insertion
    order, so a finite map is the faithful model. *)
Abbreviation metadata := (gmap string pyval).

(** [dict.get(k, default)] *)
Definition dict_get (m : metadata) (k : string) (d : pyval) : pyval :=
  match m !! k with Some v => v | None => d end.

(** [str.isspace] on one character of code point below 256: \t \n \v
    \f \r, the separators \x1c-\x1f, the space, NEL (\x85) and the
    no-break space (\xa0). *)
Definition is_space (c : ascii) : bool :=
  let n := nat_of_ascii c in
  (((9 <=? n) && (n <=? 13)) || ((28 <=? n) && (n <=? 32)) ||
   (n =? 133) || (n =? 160))%nat.

Fixpoint lstrip (s : pystr) : pystr :=
  match s with
  | [] => []
  | c :: r => if is_space c then lstrip r else s
  end.

(** [str.strip()] *)
Definition py_strip (s : pystr) : pystr := rev (lstrip (rev (lstrip s))).

(** [not text or not text.strip()] *)
Definition is_blank (s : pystr) : bool :=
  match py_strip s with [] => true | _ => false end.

(* ------------------------------------------------------------------ *)
(** ** langchain_text_splitters.RecursiveCharacterTextSplitter *)
(* ------------------------------------------------------------------ *)

(** The splitter as TextChunker builds it: [length_function=len],
    [keep_separator=True] (the class default, separator kept at the start
    of the following piece), [is_separator_regex=False],
    [strip_whitespace=True]. *)
Record RecursiveCharacterTextSplitter := {
  rs_chunk_size : Z;
  rs_chunk_overlap : Z;
  rs_separators : list pystr
}.

Fixpoint starts_with (p s : pystr) : bool :=
  match p, s with
  | [], _ => true
  | c :: p', d :: s' => if ascii_dec c d then starts_with p' s' else false
  | _ :: _, [] => false
  end.

(** [re.search(re.escape(sep), text)] for a literal, non-empty [sep]. *)
Fixpoint contains (sep s : pystr) : bool :=
  starts_with sep s ||
  match s with [] => false | _ :: r => contains sep r end.

Definition ends_with (sep cur : pystr) : bool :=
  starts_with (rev sep) (rev cur).

(** [re.split(re.escape(sep), text)] for a literal, non-empty [sep]: the
    text is scanned left to right; as soon as the current piece ends with
    [sep] (the earliest match, matches being non-overlapping), the piece
    before it is emitted. *)
Fixpoint split_on_aux (sep : pystr) (s cur : pystr) : list pystr :=
  match s with
  | [] => [cur]
  | c :: r =>
      let cur' := cur ++ [c] in
      if ends_with sep cur'
      then take (length cur' - length sep) cur' :: split_on_aux sep r []
      else split_on_aux sep r cur'
  end.

Definition split_on (sep s : pystr) : list pystr := split_on_aux sep s [].

(** [_split_text_with_regex(text, separator, keep_separator=True)] *)
Definition split_text_with_regex (text sep : pystr) : list pystr :=
  let splits :=
    match sep with
    | [] => map (fun c => [c]) text                        (* list(text) *)
    | _ =>
        match split_on sep text with
        | [] => []
        | p0 :: ps => p0 :: map (fun p => sep ++ p) ps
        end
    end in
  List.filter (fun s : pystr => match s with [] => false | _ => true end) splits.

Definition zlen (s : pystr) : Z := Z.of_nat (length s).

Fixpoint join (sep : pystr) (l : list pystr) : pystr :=
  match l with
  | [] => []
  | [x] => x
  | x :: r => x ++ sep ++ join sep r
  end.

(** [TextSplitter._join_docs] *)
Definition join_docs (docs : list pystr) (sep : pystr) : option pystr :=
  match py_strip (join sep docs) with
  | [] => None
  | t => Some t
  end.

Section Merge.
Variables (chunk_size chunk_overlap : Z) (separator : pystr).

Definition sep_len : Z := zlen separator.

(** The inner [while] of [_merge_splits]: drop documents from the front
    of [current_doc] until the window fits. On an empty [current_doc]
    the running total is 0 and (the constructor rejecting a negative
    overlap) the condition is false, so the loop stops there. *)
Fixpoint pop_front (cur : list pystr) (total len_ : Z) : list pystr * Z :=
  match cur with
  | [] => ([], total)
  | d0 :: rest =>
      if (total >? chunk_overlap)
         || ((total + len_ + sep_len >? chunk_size) && (total >? 0))
      then pop_front rest
             (total - (zlen d0 + (if (1 <? length cur)%nat then sep_len else 0)))
             len_
      else (cur, total)
  end.

(** The [for d in splits] loop of [_merge_splits] (the
    [logger.warning] for an oversized window is not modelled). *)
Fixpoint merge_loop (splits : list pystr) (docs cur : list pystr) (total : Z)
  : list pystr :=
  match splits with
  | [] =>
      match join_docs cur separator with
      | Some doc => docs ++ [doc]
      | None => docs
      end
  | d :: rest =>
      let len_ := zlen d in
      let '(docs', cur', total') :=
        if total + len_ + (match cur with [] => 0 | _ => sep_len end) >? chunk_size
        then match cur with
             | [] => (docs, cur, total)
             | _ =>
                 let docs' := match join_docs cur separator with
                              | Some doc => docs ++ [doc]
                              | None => docs
                              end in
                 let '(c, t) := pop_front cur total len_ in
                 (docs', c, t)
             end
        else (docs, cur, total) in
      let cur'' := cur' ++ [d] in
      merge_loop rest docs' cur''
        (total' + len_ + (if (1 <? length cur'')%nat then sep_len else 0))
  end.

(** [TextSplitter._merge_splits(splits, separator)] *)
Definition merge_splits (splits : list pystr) : list pystr :=
  merge_loop splits [] [] 0.
End Merge.

Section Recursive.
Variables (chunk_size chunk_overlap : Z) (last_sep : pystr).

(** The [for s in splits] loop of [_split_text]; [recur] is
    [None] when [new_separators] is empty. *)
Fixpoint process_splits (recur : option (pystr -> list pystr))
    (splits good : list pystr) : list pystr :=
  let flush := match good with
               | [] => []
               | _ => merge_splits chunk_size chunk_overlap [] good
               end in
  match splits with
  | [] => flush
  | s :: rest =>
      if zlen s <? chunk_size
      then process_splits recur rest (good ++ [s])
      else flush
           ++ match recur with None => [s] | Some f => f s end
           ++ process_splits recur rest []
  end.

(** [_split_text(text, separators)]: the [for i, _s in enumerate(...)]
    separator search is the recursion on [seps]; [last_sep] is
    [separators[-1]], the separator used when none is found. *)
Fixpoint split_rec (seps : list pystr) (text : pystr) : list pystr :=
  match seps with
  | [] => process_splits None (split_text_with_regex text last_sep) []
  | s :: rest =>
      match s with
      | [] => process_splits None (split_text_with_regex text []) []
      | _ =>
          if contains s text
          then process_splits
                 (match rest with [] => None | _ => Some (split_rec rest) end)
                 (split_text_with_regex text s) []
          else split_rec rest text
      end
  end.
End Recursive.

(** [separators[-1]] (TextChunker always passes five separators). *)
Fixpoint last_or_empty (l : list pystr) : pystr :=
  match l with [] => [] | [x] => x | _ :: r => last_or_empty r end.

(** [RecursiveCharacterTextSplitter.split_text] *)
Definition split_text (ts : RecursiveCharacterTextSplitter) (text : pystr)
  : list pystr :=
  split_rec (rs_chunk_size ts) (rs_chunk_overlap ts)
    (last_or_empty (rs_separators ts)) (rs_separators ts) text.

(* ------------------------------------------------------------------ *)
(** ** src/utils/text_chunker.py *)
(* ------------------------------------------------------------------ *)

(** [Config.CHUNK_SIZE] and [Config.CHUNK_OVERLAP] at their defaults. *)
Definition Config_CHUNK_SIZE : Z := 1000.
Definition Config_CHUNK_OVERLAP : Z := 200.

Definition nl : ascii := ascii_of_nat 10.

Record TextChunker := {
  chunk_size : Z;
  chunk_overlap : Z
}.

(** [x or default] for an optional int argument. *)
Definition int_or (x : option Z) (d : Z) : Z :=
  match x with None => d | Some 0 => d | Some z => z end.

Inductive exn :=
| ValueError (msg : pystr)
| TypeError
| IndexError
| FaissError.

(** [str(z)] for an int. *)
Definition z_str (z : Z) : pystr := S_ (NilZero.string_of_int (Z.to_int z)).

(** [TextChunker.__init__]: the splitter's constructor
    ([TextSplitter.__init__] of langchain_text_splitters) rejects a
    non-positive size, a negative overlap and an overlap above the size,
    in this order, with these messages. *)
Definition make_text_chunker (cs ov : option Z) : exn + TextChunker :=
  let c := int_or cs Config_CHUNK_SIZE in
  let o := int_or ov Config_CHUNK_OVERLAP in
  if c <=? 0 then inl (ValueError (S_ "chunk_size must be > 0, got " ++ z_str c))
  else if o <? 0 then inl (ValueError (S_ "chunk_overlap must be >= 0, got " ++ z_str o))
  else if o >? c then
    inl (ValueError (S_ "Got a larger chunk overlap (" ++ z_str o ++
                     S_ ") than chunk size (" ++ z_str c ++ S_ "), should be smaller."))
  else inr {| chunk_size := c; chunk_overlap := o |}.

(** [self.text_splitter] *)
Definition text_splitter (tc : TextChunker) : RecursiveCharacterTextSplitter :=
  {| rs_chunk_size := chunk_size tc;
     rs_chunk_overlap := chunk_overlap tc;
     rs_separators := [[nl; nl]; [nl]; S_ ". "; S_ " "; []] |}.

(** A chunk object [{'text': ..., 'metadata': ...}]. *)
Record Chunk := {
  c_text : pystr;
  c_metadata : metadata
}.

(** [{**base_metadata, 'chunk_index': i, 'chunk_total': total}] *)
Definition chunk_metadata (base : metadata) (i total : nat) : metadata :=
  <["chunk_total" := PInt (Z.of_nat total)]>
    (<["chunk_index" := PInt (Z.of_nat i)]> base).

(** The [for i, chunk in enumerate(chunks)] loop. *)
Definition build_chunks (base : metadata) (chunks : list pystr) : list Chunk :=
  imap (fun i c => {| c_text := c;
                      c_metadata := chunk_metadata base i (length chunks) |})
    chunks.

(** [metadata or {}] *)
Definition base_metadata (md : option metadata) : metadata :=
  match md with Some m => m | None => ∅ end.

(** [TextChunker.chunk_text(text, metadata)] *)
Definition chunk_text (tc : TextChunker) (text : pystr) (md : option metadata)
  : list Chunk :=
  if is_blank text then []
  else build_chunks (base_metadata md) (split_text (text_splitter tc) text).

(** [TextChunker.get_chunk_count(text)] *)
Definition get_chunk_count (tc : TextChunker) (text : pystr) : nat :=
  if is_blank text then 0%nat
  else length (split_text (text_splitter tc) text).


(* ------------------------------------------------------------------ *)
(** ** src/utils/vector_store.py *)
(* ------------------------------------------------------------------ *)

(** One stored vector with its docstore payload. *)
Record VectorRecord := {
  vr_text : pystr;
  vr_metadata : metadata;
  vr_embedding : list Q
}.

(** A langchain [FAISS] store over an [IndexFlatL2]: its dimension and
    its records in insertion order ([index.ntotal] is their number). *)
Record FaissStore := {
  fs_dim : nat;
  fs_records : list VectorRecord
}.

(** What [save_local] leaves at a path: a snapshot [load_local] can read
    back, or files it cannot read (truncated, corrupt); [err] is
    [str(e)] of the exception [load_local] raises on them. *)
Inductive snapshot :=
| Snapshot (st : FaissStore)
| Unreadable (err : pystr).

Record VectorStoreManager := {
  vector_store : option FaissStore;
  store_path : pystr
}.

(** The process state the manager's methods act on: the manager object,
    the snapshot directories on disk and the lines printed on stdout.
    The disk is keyed by the path string the manager forms with
    [os.path.join]; two spellings of one directory are two keys, so the
    statements below only relate a path to itself. *)
Record World := {
  mgr : VectorStoreManager;
  disk : gmap pystr snapshot;
  stdout : list pystr
}.

Definition Config_VECTOR_STORE_PATH : pystr := S_ "vector_store".
Definition Config_TOP_K_RESULTS : Z := 3.

(** [VectorStoreManager()] *)
Definition fresh_manager : VectorStoreManager :=
  {| vector_store := None; store_path := Config_VECTOR_STORE_PATH |}.

(** A search result dict [{'text', 'metadata', 'similarity_score'}]; an
    absent key is [None]. *)
Record ResultDict := {
  rd_text : pystr;
  rd_metadata : option metadata;
  rd_score : option Q
}.

(** State and exception monad: an exception leaves the state as it was
    at the point of the raise. *)
Definition M (A : Type) : Type := World -> (exn + A) * World.

Definition ret {A} (a : A) : M A := fun w => (inr a, w).
Definition raise {A} (e : exn) : M A := fun w => (inl e, w).
Definition bind {A B} (m : M A) (k : A -> M B) : M B :=
  fun w => match m w with
           | (inl e, w') => (inl e, w')
           | (inr a, w') => k a w'
           end.
Definition get_mgr : M VectorStoreManager := fun w => (inr (mgr w), w).
Definition get_disk : M (gmap pystr snapshot) := fun w => (inr (disk w), w).
Definition set_store (s : option FaissStore) : M unit :=
  fun w => (inr tt, {| mgr := {| vector_store := s; store_path := store_path (mgr w) |};
                       disk := disk w; stdout := stdout w |}).
Definition write_disk (p : pystr) (s : snapshot) : M unit :=
  fun w => (inr tt, {| mgr := mgr w; disk := <[p := s]> (disk w); stdout := stdout w |}).
Definition print (line : pystr) : M unit :=
  fun w => (inr tt, {| mgr := mgr w; disk := disk w; stdout := stdout w ++ [line] |}).

Notation "'let*' x := m 'in' k" := (bind m (fun x => k))
  (at level 200, x name, m at level 100, k at level 200).

(** [os.path.join(a, b)] *)
Definition path_join (a b : pystr) : pystr :=
  if starts_with (S_ "/") b then b
  else match a with
       | [] => b
       | _ => if ends_with (S_ "/") a then a ++ b else a ++ S_ "/" ++ b
       end.

(** Squared L2 distance, as [IndexFlatL2] reports it. *)
Fixpoint l2sq (u v : list Q) : Q :=
  match u, v with
  | x :: u', y :: v' => (x - y) * (x - y) + l2sq u' v'
  | _, _ => 0%Q
  end.

(** Stable insertion by distance: among equal distances the earlier
    record stays first. *)
Fixpoint insert_by_dist (x : Q * VectorRecord) (l : list (Q * VectorRecord))
  : list (Q * VectorRecord) :=
  match l with
  | [] => [x]
  | y :: r => if Qle_bool (fst y) (fst x) then y :: insert_by_dist x r else x :: l
  end.

Definition rank (l : list (Q * VectorRecord)) : list (Q * VectorRecord) :=
  fold_right insert_by_dist [] (rev l).

Section WithEmbeddings.
(** [OpenAIEmbeddings]: one vector per text, or the API call fails. *)
Variable embed : pystr -> option (list Q).

Fixpoint embed_documents (texts : list pystr) : option (list (list Q)) :=
  match texts with
  | [] => Some []
  | t :: r => match embed t, embed_documents r with
              | Some v, Some vs => Some (v :: vs)
              | _, _ => None
              end
  end.

Definition embedding_error : exn := ValueError (S_ "embedding request failed").

Definition to_records (chunks : list Chunk) (vs : list (list Q)) : list VectorRecord :=
  zip_with (fun c v => {| vr_text := c_text c; vr_metadata := c_metadata c;
                          vr_embedding := v |}) chunks vs.

(** [FAISS.from_documents(documents, embeddings)]: the first vector
    fixes the dimension; [np.array] of ragged vectors raises. *)
Definition faiss_from_documents (chunks : list Chunk) : M FaissStore :=
  match embed_documents (map c_text chunks) with
  | None => raise embedding_error
  | Some vs =>
      let d := match vs with [] => 0%nat | v :: _ => length v end in
      if forallb (fun v => Nat.eqb (length v) d) vs
      then ret {| fs_dim := d; fs_records := to_records chunks vs |}
      else raise (ValueError (S_ "inhomogeneous shape"))
  end.

(** [FAISS.add_documents]: [index.add] asserts the dimension. *)
Definition faiss_add_documents (st : FaissStore) (chunks : list Chunk) : M FaissStore :=
  match embed_documents (map c_text chunks) with
  | None => raise embedding_error
  | Some vs =>
      if forallb (fun v => Nat.eqb (length v) (fs_dim st)) vs
      then ret {| fs_dim := fs_dim st; fs_records := fs_records st ++ to_records chunks vs |}
      else raise FaissError
  end.

(** [FAISS.similarity_search_with_score(query, k)]: exact search; ids
    [-1] (fewer than [k] records) are skipped. *)
Definition faiss_search (st : FaissStore) (query : pystr) (k : Z)
  : M (list (VectorRecord * Q)) :=
  match embed query with
  | None => raise embedding_error
  | Some qv =>
      if negb (Nat.eqb (length qv) (fs_dim st)) then raise FaissError
      else if k <=? 0 then raise FaissError
      else ret (map (fun p => (snd p, fst p))
                    (take (Z.to_nat k)
                       (rank (map (fun r => (l2sq qv (vr_embedding r), r))
                                  (fs_records st)))))
  end.

(** [create_vector_store(chunks)] *)
Definition create_vector_store (chunks : list Chunk) : M nat :=
  match chunks with
  | [] => raise (ValueError (S_ "No chunks provided to create vector store"))
  | _ =>
      let* st := faiss_from_documents chunks in
      let* _ := set_store (Some st) in
      ret (length chunks)
  end.

(** [add_documents_to_store(chunks)] *)
Definition add_documents_to_store (chunks : list Chunk) : M nat :=
  match chunks with
  | [] => ret 0%nat
  | _ =>
      let* m := get_mgr in
      match vector_store m with
      | None => create_vector_store chunks
      | Some st =>
          let* st' := faiss_add_documents st chunks in
          let* _ := set_store (Some st') in
          ret (length chunks)
      end
  end.

(** [search_similar_documents(query, top_k)] *)
Definition search_similar_documents (query : pystr) (top_k : option Z)
  : M (list ResultDict) :=
  let* m := get_mgr in
  match vector_store m with
  | None => ret []
  | Some st =>
      let k := int_or top_k Config_TOP_K_RESULTS in
      let* results := faiss_search st query k in
      ret (map (fun p => {| rd_text := vr_text (fst p);
                            rd_metadata := Some (vr_metadata (fst p));
                            rd_score := Some (snd p) |}) results)
  end.
End WithEmbeddings.

(** [save_vector_store(filename)]. The directory [os.makedirs] creates
    is not recorded, and [os.makedirs] or [save_local] failing (part-way)
    is not modelled: with a store, the save succeeds. *)
Definition save_vector_store (filename : pystr) : M pystr :=
  let* m := get_mgr in
  match vector_store m with
  | None => raise (ValueError (S_ "No vector store to save"))
  | Some st =>
      let save_path := path_join (store_path m) filename in
      let* _ := write_disk save_path (Snapshot st) in
      ret save_path
  end.

(** [load_vector_store(filename)]: a missing path gives [False]; a
    [load_local] that raises is caught, printed, and gives [False]. *)
Definition load_vector_store (filename : pystr) : M bool :=
  let* m := get_mgr in
  let load_path := path_join (store_path m) filename in
  let* d := get_disk in
  match d !! load_path with
  | None => ret false
  | Some (Unreadable e) =>
      let* _ := print (S_ "Error loading vector store: " ++ e) in
      ret false
  | Some (Snapshot st) =>
      let* _ := set_store (Some st) in
      ret true
  end.

(** [get_store_size()] *)
Definition get_store_size (w : World) : nat :=
  match vector_store (mgr w) with
  | None => 0%nat
  | Some st => length (fs_records st)
  end.

Definition faiss_index_default : pystr := S_ "faiss_index".

(** The worlds a process can reach: [app.py] builds a fresh manager at
    start (the disk is kept across restarts), then runs any sequence of
    manager calls; a snapshot on disk may also be damaged externally. *)
Inductive reachable (embed : pystr -> option (list Q)) : World -> Prop :=
| R_init :
    reachable embed {| mgr := fresh_manager; disk := ∅; stdout := [] |}
| R_restart w :
    reachable embed w ->
    reachable embed {| mgr := fresh_manager; disk := disk w; stdout := stdout w |}
| R_create w chunks :
    reachable embed w -> reachable embed (snd (create_vector_store embed chunks w))
| R_add w chunks :
    reachable embed w -> reachable embed (snd (add_documents_to_store embed chunks w))
| R_search w q k :
    reachable embed w -> reachable embed (snd (search_similar_documents embed q k w))
| R_save w f :
    reachable embed w -> reachable embed (snd (save_vector_store f w))
| R_load w f :
    reachable embed w -> reachable embed (snd (load_vector_store f w))
| R_damage w p e :
    reachable embed w ->
    reachable embed {| mgr := mgr w; disk := <[p := Unreadable e]> (disk w);
                       stdout := stdout w |}.

(* ------------------------------------------------------------------ *)
(** ** src/utils/llm_handler.py *)
(* ------------------------------------------------------------------ *)

(** One [[Source i: source, Section section]\n text] block of
    [_format_context]; the block is kept as the values the f-string
    interpolates. *)
Record ContextPart := {
  cp_index : nat;
  cp_source : pyval;
  cp_section : pyval;
  cp_text : pystr
}.

(** [SystemMessage] carries [system_prompt.format(context=...)], kept as
    the context blocks; [HumanMessage] carries [f"Question: {query}"]. *)
Inductive message :=
| SystemMessage (context : list ContextPart)
| HumanMessage (content : pystr).

(** What [self.llm.invoke(messages)] does: return a response whose
    [.content] is the answer, or raise (network, quota, timeout). *)
Inductive llm_outcome :=
| LLMContent (content : pystr)
| LLMRaise (err : pystr).

Record Source := {
  src_filename : pyval;
  src_chunk_index : pyval;
  src_text_preview : pystr;
  src_similarity_score : Q
}.

Record Response := {
  answer : pystr;
  sources : list Source;
  confidence : Q
}.

(** [x + 1] *)
Definition py_add_one (v : pyval) : option pyval :=
  match v with
  | PInt z => Some (PInt (z + 1))
  | PFloat q => Some (PFloat (q + 1))
  | PBool b => Some (PInt (if b then 2 else 1))
  | _ => None                                          (* TypeError *)
  end.

Definition rd_meta (c : ResultDict) : metadata :=
  match rd_metadata c with Some m => m | None => ∅ end.

(** [_format_context(chunks)]; [None] is the [TypeError] of
    [metadata.get("chunk_index", 0) + 1] on a non-numeric index. *)
Fixpoint format_context_from (i : nat) (chunks : list ResultDict)
  : option (list ContextPart) :=
  match chunks with
  | [] => Some []
  | c :: r =>
      let md := rd_meta c in
      match py_add_one (dict_get md "chunk_index" (PInt 0)), format_context_from (S i) r with
      | Some section, Some parts =>
          Some ({| cp_index := i;
                   cp_source := dict_get md "filename" (PStr (S_ "Unknown"));
                   cp_section := section;
                   cp_text := rd_text c |} :: parts)
      | _, _ => None
      end
  end.

Definition format_context (chunks : list ResultDict) : option (list ContextPart) :=
  format_context_from 1 chunks.

(** [text[:200] + "..." if len(text) > 200 else text] *)
Definition text_preview (text : pystr) : pystr :=
  if (200 <? length text)%nat then take 200 text ++ S_ "..." else text.

Definition score_or_zero (c : ResultDict) : Q :=
  match rd_score c with Some q => q | None => 0%Q end.

(** [_format_sources(chunks)] *)
Definition format_sources (chunks : list ResultDict) : list Source :=
  map (fun c =>
         let md := rd_meta c in
         {| src_filename := dict_get md "filename" (PStr (S_ "Unknown"));
            src_chunk_index := dict_get md "chunk_index" (PInt 0);
            src_text_preview := text_preview (rd_text c);
            src_similarity_score := score_or_zero c |}) chunks.

(** Float [<]. *)
Definition Qltb (a b : Q) : bool := negb (Qle_bool b a).

(** [_calculate_confidence(avg_similarity)] *)
Definition calculate_confidence (avg : Q) : Q :=
  if Qltb avg (1 # 2) then 9 # 10
  else if Qltb avg 1 then 7 # 10
  else if Qltb avg (3 # 2) then 1 # 2
  else 3 # 10.

(** [sum(chunk.get("similarity_score", 0.0) ...) / len(context_chunks)] *)
Definition avg_similarity (chunks : list ResultDict) : Q :=
  fold_right Qplus 0%Q (map score_or_zero chunks) / inject_Z (Z.of_nat (length chunks)).

Definition no_documents_answer : pystr :=
  S_ "I don't have any relevant documents to answer this question.".

Definition build_messages (query : pystr) (ctx : list ContextPart) : list message :=
  [SystemMessage ctx; HumanMessage (S_ "Question: " ++ query)].

(** [LLMHandler.generate_answer(query, context_chunks)]. The first
    component lists the message lists the language model was invoked
    with; [inl] is an exception escaping the method. *)
Definition generate_answer (llm : list message -> llm_outcome) (query : pystr)
    (chunks : list ResultDict) : list (list message) * (exn + Response) :=
  match chunks with
  | [] => ([], inr {| answer := no_documents_answer; sources := []; confidence := 0%Q |})
  | _ =>
      match format_context chunks with
      | None => ([], inl TypeError)
      | Some ctx =>
          let msgs := build_messages query ctx in
          ([msgs],
           match llm msgs with
           | LLMContent a =>
               inr {| answer := a;
                      sources := format_sources chunks;
                      confidence := calculate_confidence (avg_similarity chunks) |}
           | LLMRaise e =>
               inr {| answer := S_ "Error generating answer: " ++ e;
                      sources := []; confidence := 0%Q |}
           end)
      end
  end.

(* ------------------------------------------------------------------ *)
(** ** src/utils/document_processor.py *)
(* ------------------------------------------------------------------ *)

Definition dot : ascii := "."%char.
Definition slash : ascii := "/"%char.

(** [str.lower()] on one character of code point below 256: A-Z and
    the Latin-1 capitals \xc0-\xde (but the sign \xd7) move up by 32;
    every other character is its own lower case. *)
Definition lower_char (c : ascii) : ascii :=
  let n := nat_of_ascii c in
  if ((65 <=? n) && (n <=? 90) ||
      (192 <=? n) && (n <=? 222) && negb (n =? 215))%nat
  then ascii_of_nat (n + 32) else c.

Definition py_lower (s : pystr) : pystr := map lower_char s.

(** [s.rfind(c)]: the index of the last [c], or -1. *)
Fixpoint rfind_from (c : ascii) (s : pystr) (i : nat) (acc : Z) : Z :=
  match s with
  | [] => acc
  | d :: r => rfind_from c r (S i) (if ascii_dec c d then Z.of_nat i else acc)
  end.

Definition rfind (c : ascii) (s : pystr) : Z := rfind_from c s 0 (-1).

(** [s[a:b]] *)
Definition slice (s : pystr) (a b : nat) : pystr := take (b - a) (drop a s).

(** [os.path.splitext(p)] ([genericpath._splitext] with [sep='/'] and
    [extsep='.']): the [while] loop skipping the leading dots of the
    file name returns the split at the first non-dot character. *)
Definition splitext (p : pystr) : pystr * pystr :=
  let sepIndex := rfind slash p in
  let dotIndex := rfind dot p in
  if sepIndex <? dotIndex then
    let filenameIndex := Z.to_nat (sepIndex + 1) in
    if existsb (fun c => if ascii_dec c dot then false else true)
         (slice p filenameIndex (Z.to_nat dotIndex))
    then (take (Z.to_nat dotIndex) p, drop (Z.to_nat dotIndex) p)
    else (p, [])
  else (p, []).

(** [Config.ALLOWED_EXTENSIONS] at its default ['pdf,docx,txt'.split(',')]. *)
Definition Config_ALLOWED_EXTENSIONS : list pystr := [S_ "pdf"; S_ "docx"; S_ "txt"].

(** [DocumentProcessor.validate_file_extension(filename, allowed)] *)
Definition validate_file_extension (filename : pystr) (allowed : list pystr) : bool :=
  if negb (existsb (fun c => if ascii_dec c dot then true else false) filename)
  then false
  else
    let ext := py_lower (drop (Z.to_nat (rfind dot filename + 1)) filename) in
    bool_decide (ext ∈ allowed).

(** What the extractors see of the file system: whether a path exists,
    [open(p).read()], the [extract_text()] of each page of
    [PdfReader(p)], the [.text] of each paragraph of [Document(p)]; each
    either fails with a message or gives its content. *)
Record FileSystem := {
  path_exists : pystr -> bool;
  read_file : pystr -> pystr + pystr;
  pdf_pages : pystr -> pystr + list pystr;
  docx_paragraphs : pystr -> pystr + list pystr
}.

(** The exceptions [process_document] raises: [FileNotFoundError], a
    manager exception ([ValueError]), or the bare [Exception] the
    extractors wrap errors in. *)
Inductive doc_exn :=
| FileNotFoundError (msg : pystr)
| Raised (e : exn)
| Exception (msg : pystr).

(** [text = ""; for x in xs: text += x + "\n"] *)
Definition append_lines (xs : list pystr) : pystr :=
  fold_left (fun text x => text ++ x ++ [nl]) xs [].

Definition extract_text_from_pdf (fs : FileSystem) (p : pystr) : doc_exn + pystr :=
  match pdf_pages fs p with
  | inl e => inl (Exception (S_ "Error extracting text from PDF: " ++ e))
  | inr pages => inr (py_strip (append_lines pages))
  end.

Definition extract_text_from_docx (fs : FileSystem) (p : pystr) : doc_exn + pystr :=
  match docx_paragraphs fs p with
  | inl e => inl (Exception (S_ "Error extracting text from DOCX: " ++ e))
  | inr paras => inr (py_strip (append_lines paras))
  end.

Definition extract_text_from_txt (fs : FileSystem) (p : pystr) : doc_exn + pystr :=
  match read_file fs p with
  | inl e => inl (Exception (S_ "Error reading TXT file: " ++ e))
  | inr content => inr (py_strip content)
  end.

(** [DocumentProcessor.process_document(file_path)] *)
Definition process_document (fs : FileSystem) (p : pystr) : doc_exn + pystr :=
  if negb (path_exists fs p) then inl (FileNotFoundError (S_ "File not found: " ++ p))
  else
    let ext := py_lower (snd (splitext p)) in
    if bool_decide (ext = S_ ".pdf") then extract_text_from_pdf fs p
    else if bool_decide (ext = S_ ".docx") then extract_text_from_docx fs p
    else if bool_decide (ext = S_ ".txt") then extract_text_from_txt fs p
    else inl (Raised (ValueError (S_ "Unsupported file format: " ++ ext))).

(* ------------------------------------------------------------------ *)
(** ** src/app.py *)
(* ------------------------------------------------------------------ *)

(** The body of [upload_document] from the extracted [text] on: the
    blank check, [chunk_text] with the filename, [add_documents_to_store]
    and [save_vector_store()]. [inl] is a 400 error message, [inr] the
    [chunk_count]; an exception propagates (the endpoint answers 500).
    The MongoDB insert is not modelled. *)
Definition index_text (embed : pystr -> option (list Q)) (tc : TextChunker)
    (filename text : pystr) : M (pystr + nat) :=
  if is_blank text then ret (inl (S_ "No text could be extracted from the document"))
  else
    match chunk_text tc text (Some {[ "filename" := PStr filename ]}) with
    | [] => ret (inl (S_ "Failed to create chunks from document"))
    | chunks =>
        let* chunk_count := add_documents_to_store embed chunks in
        let* _ := save_vector_store faiss_index_default in
        ret (inr chunk_count)
    end.

(** [query_documents] after the JSON is read: [query] is
    [data['query']], [top_k] is [data.get('top_k')] ([None] when the key
    is absent). [inl] is the 400 error, [inr] the response with
    [chunks_retrieved]; an exception propagates (500). *)
Definition query_documents (embed : pystr -> option (list Q))
    (llm : list message -> llm_outcome) (query : pystr) (top_k : option Z)
  : M (pystr + (Response * nat)) :=
  let q := py_strip query in
  match q with
  | [] => ret (inl (S_ "Query cannot be empty"))
  | _ =>
      let k := match top_k with None => Config_TOP_K_RESULTS | Some k => k end in
      let* relevant_chunks := search_similar_documents embed q (Some k) in
      match snd (generate_answer llm q relevant_chunks) with
      | inl e => raise e
      | inr result => ret (inr (result, length relevant_chunks))
      end
  end.

(* ================================================================== *)
(** * Properties *)
(* ================================================================== *)

(* ------------------------------------------------------------------ *)
(** ** Chunk metadata *)
(* ------------------------------------------------------------------ *)

Lemma build_chunks_length (base : metadata) (chunks : list pystr) :
  length (build_chunks base chunks) = length chunks.
Proof. unfold build_chunks. apply length_imap. Qed.

Lemma build_chunks_lookup (base : metadata) (chunks : list pystr) (i : nat) (c : Chunk) :
  build_chunks base chunks !! i = Some c ->
  exists t, chunks !! i = Some t /\
    c = {| c_text := t; c_metadata := chunk_metadata base i (length chunks) |}.
Proof.
  unfold build_chunks. rewrite list_lookup_imap.
  destruct (chunks !! i) as [t|] eqn:Ht; simpl; [|discriminate].
  intros H. injection H as <-. eauto.
Qed.

Lemma chunk_text_lookup (tc : TextChunker) (text : pystr) (md : option metadata)
    (i : nat) (c : Chunk) :
  chunk_text tc text md !! i = Some c ->
  c_metadata c = chunk_metadata (base_metadata md) i (length (chunk_text tc text md)).
Proof.
  unfold chunk_text. destruct (is_blank text); [discriminate|].
  intros H. rewrite build_chunks_length.
  destruct (build_chunks_lookup _ _ _ _ H) as (t & _ & ->). reflexivity.
Qed.

Lemma chunk_metadata_index (base : metadata) (i n : nat) :
  chunk_metadata base i n !! "chunk_index" = Some (PInt (Z.of_nat i)).
Proof.
  unfold chunk_metadata.
  rewrite lookup_insert_ne by discriminate. apply lookup_insert_eq.
Qed.

Lemma chunk_metadata_total (base : metadata) (i n : nat) :
  chunk_metadata base i n !! "chunk_total" = Some (PInt (Z.of_nat n)).
Proof. unfold chunk_metadata. apply lookup_insert_eq. Qed.

Lemma chunk_metadata_other (base : metadata) (i n : nat) (k : string) :
  k ≠ "chunk_index" -> k ≠ "chunk_total" ->
  chunk_metadata base i n !! k = base !! k.
Proof.
  intros H1 H2. unfold chunk_metadata.
  rewrite lookup_insert_ne by congruence.
  rewrite lookup_insert_ne by congruence. reflexivity.
Qed.

Lemma chunk_metadata_keys (base : metadata) (i n : nat) (k : string) :
  is_Some (base !! k) -> is_Some (chunk_metadata base i n !! k).
Proof.
  intros Hk.
  destruct (decide (k = "chunk_total")) as [->|Ht];
    [rewrite chunk_metadata_total; eauto|].
  destruct (decide (k = "chunk_index")) as [->|Hi];
    [rewrite chunk_metadata_index; eauto|].
  rewrite chunk_metadata_other by assumption. exact Hk.
Qed.

(** C3: blank text (empty or only whitespace once stripped) gives no
    chunks; nothing is raised, the empty list is the whole report. *)
Theorem chunk_text_blank (tc : TextChunker) (text : pystr) (md : option metadata) :
  is_blank text = true -> chunk_text tc text md = [].
Proof. intros H. unfold chunk_text. rewrite H. reflexivity. Qed.

Lemma chunk_text_blank_witness :
  is_blank (S_ "  ") = true /\
  chunk_text {| chunk_size := 1000; chunk_overlap := 200 |} (S_ "  ") None = [].
Proof.
  split; [reflexivity|].
  apply (chunk_text_blank {| chunk_size := 1000; chunk_overlap := 200 |} (S_ "  ") None).
  reflexivity.
Defined.

(** C4: the chunk at position [i] carries [base_metadata] merged with
    [chunk_index = i] and [chunk_total = N] (N the number of chunks):
    every other key keeps its caller value, and no caller key is lost. *)
Theorem chunk_text_metadata_merge (tc : TextChunker) (text : pystr)
    (md : option metadata) (i : nat) (c : Chunk) :
  is_blank text = false ->
  chunk_text tc text md !! i = Some c ->
  let N := length (chunk_text tc text md) in
  c_metadata c = <["chunk_total" := PInt (Z.of_nat N)]>
                   (<["chunk_index" := PInt (Z.of_nat i)]> (base_metadata md)) /\
  (forall k, k ≠ "chunk_index" -> k ≠ "chunk_total" ->
             c_metadata c !! k = base_metadata md !! k) /\
  (forall k, is_Some (base_metadata md !! k) -> is_Some (c_metadata c !! k)).
Proof.
  intros _ H N. pose proof (chunk_text_lookup _ _ _ _ _ H) as Hm.
  split; [exact Hm|]. rewrite Hm. split.
  - intros k H1 H2. apply chunk_metadata_other; assumption.
  - intros k Hk. apply chunk_metadata_keys; assumption.
Qed.

(** C10: even when [base_metadata] has its own [chunk_index] or
    [chunk_total], each chunk reports its own position and the total. *)
Theorem chunk_text_reserved_keys_win (tc : TextChunker) (text : pystr)
    (md : option metadata) (i : nat) (c : Chunk) :
  is_blank text = false ->
  chunk_text tc text md !! i = Some c ->
  c_metadata c !! "chunk_index" = Some (PInt (Z.of_nat i)) /\
  c_metadata c !! "chunk_total" = Some (PInt (Z.of_nat (length (chunk_text tc text md)))).
Proof.
  intros _ H. rewrite (chunk_text_lookup _ _ _ _ _ H).
  split; [apply chunk_metadata_index | apply chunk_metadata_total].
Qed.

(** C9: [get_chunk_count] is the length of what [chunk_text] returns,
    for any metadata, blank input included. *)
Theorem get_chunk_count_agrees (tc : TextChunker) (text : pystr) (md : option metadata) :
  get_chunk_count tc text = length (chunk_text tc text md).
Proof.
  unfold get_chunk_count, chunk_text.
  destruct (is_blank text); [reflexivity|].
  symmetry. apply build_chunks_length.
Qed.

Definition sample_tc : TextChunker := {| chunk_size := 1000; chunk_overlap := 200 |}.
Definition sample_text : pystr := S_ "Hello world".
Definition sample_md : option metadata :=
  Some (<["chunk_index" := PInt 7]> {[ "filename" := PStr (S_ "a.txt") ]}).
Definition sample_chunk : Chunk :=
  {| c_text := S_ "Hello world";
     c_metadata := chunk_metadata (base_metadata sample_md) 0 1 |}.

Lemma sample_not_blank : is_blank sample_text = false.
Proof. reflexivity. Qed.

Lemma sample_chunk_at_0 : chunk_text sample_tc sample_text sample_md !! 0%nat = Some sample_chunk.
Proof. vm_compute. reflexivity. Qed.

Lemma chunk_text_metadata_merge_witness :
  is_blank sample_text = false /\
  chunk_text sample_tc sample_text sample_md !! 0%nat = Some sample_chunk /\
  (forall k, is_Some (base_metadata sample_md !! k) -> is_Some (c_metadata sample_chunk !! k)).
Proof.
  split; [exact sample_not_blank|]. split; [exact sample_chunk_at_0|].
  exact (proj2 (proj2 (chunk_text_metadata_merge sample_tc sample_text sample_md 0 sample_chunk
                          sample_not_blank sample_chunk_at_0))).
Defined.

Lemma chunk_text_reserved_keys_win_witness :
  is_blank sample_text = false /\
  chunk_text sample_tc sample_text sample_md !! 0%nat = Some sample_chunk /\
  c_metadata sample_chunk !! "chunk_index" = Some (PInt 0).
Proof.
  split; [exact sample_not_blank|]. split; [exact sample_chunk_at_0|].
  exact (proj1 (chunk_text_reserved_keys_win sample_tc sample_text sample_md 0 sample_chunk
                   sample_not_blank sample_chunk_at_0)).
Defined.

(* ------------------------------------------------------------------ *)
(** ** The splitter on a text that fits in one chunk *)
(* ------------------------------------------------------------------ *)

Lemma starts_with_app (p s : pystr) :
  starts_with p s = true -> exists t, s = p ++ t.
Proof.
  revert s. induction p as [|c p IH]; intros s H; simpl in *.
  - eauto.
  - destruct s as [|d s]; [discriminate|].
    destruct (ascii_dec c d) as [->|]; [|discriminate].
    destruct (IH s H) as [t ->]. eauto.
Qed.

Lemma ends_with_app (sep cur : pystr) :
  ends_with sep cur = true ->
  take (length cur - length sep) cur ++ sep = cur.
Proof.
  unfold ends_with. intros H.
  destruct (starts_with_app _ _ H) as [t Ht].
  assert (Hc : cur = rev t ++ sep).
  { rewrite <- (rev_involutive cur), Ht, rev_app_distr, rev_involutive. reflexivity. }
  rewrite Hc, length_app, length_rev.
  replace (length t + length sep - length sep)%nat with (length (rev t))
    by (rewrite length_rev; lia).
  rewrite take_app_length. reflexivity.
Qed.

Lemma join_cons (sep x : pystr) (l : list pystr) :
  l <> [] -> join sep (x :: l) = x ++ sep ++ join sep l.
Proof. destruct l; [congruence|reflexivity]. Qed.

Lemma split_on_aux_nonnil (sep s cur : pystr) : split_on_aux sep s cur <> [].
Proof.
  revert cur. induction s as [|c s IH]; intros cur; simpl; [discriminate|].
  destruct (ends_with sep (cur ++ [c])); [discriminate|apply IH].
Qed.

Lemma split_on_aux_join (sep s cur : pystr) :
  join sep (split_on_aux sep s cur) = cur ++ s.
Proof.
  revert cur. induction s as [|c s IH]; intros cur; simpl.
  - rewrite app_nil_r. reflexivity.
  - destruct (ends_with sep (cur ++ [c])) eqn:He.
    + rewrite join_cons by apply split_on_aux_nonnil.
      rewrite IH, app_nil_l, app_assoc, (ends_with_app _ _ He).
      rewrite <- app_assoc. reflexivity.
    + rewrite IH, <- app_assoc. reflexivity.
Qed.

Lemma concat_keep_start (sep p0 : pystr) (ps : list pystr) :
  concat (p0 :: map (fun p => sep ++ p) ps) = join sep (p0 :: ps).
Proof.
  revert p0. induction ps as [|p ps IH]; intros p0; simpl.
  - apply app_nil_r.
  - specialize (IH p).
    change (p0 ++ ((sep ++ p) ++ concat (map (fun p => sep ++ p) ps))
            = p0 ++ sep ++ join sep (p :: ps)).
    rewrite <- IH. cbn [concat]. rewrite !app_assoc. reflexivity.
Qed.

Lemma concat_filter_nonempty (l : list pystr) :
  concat (List.filter (fun s : pystr => match s with [] => false | _ => true end) l)
  = concat l.
Proof.
  induction l as [|x l IH]; simpl; [reflexivity|].
  destruct x; simpl; rewrite IH; reflexivity.
Qed.

Lemma filter_nonempty_all (l : list pystr) :
  Forall (fun s : pystr => s <> [])
    (List.filter (fun s : pystr => match s with [] => false | _ => true end) l).
Proof.
  induction l as [|x l IH]; simpl; [constructor|].
  destruct x; [exact IH|constructor; [discriminate|exact IH]].
Qed.

Lemma concat_singletons (text : pystr) : concat (map (fun c => [c]) text) = text.
Proof. induction text; simpl; congruence. Qed.

(** The pieces of [_split_text_with_regex] are non-empty and, the
    separator being kept, concatenate back to the text. *)
Lemma split_text_with_regex_concat (text sep : pystr) :
  concat (split_text_with_regex text sep) = text /\
  Forall (fun s : pystr => s <> []) (split_text_with_regex text sep).
Proof.
  unfold split_text_with_regex. split; [|apply filter_nonempty_all].
  rewrite concat_filter_nonempty. destruct sep as [|a sep'].
  - apply concat_singletons.
  - unfold split_on. pose proof (split_on_aux_nonnil (a :: sep') text []) as Hn.
    pose proof (split_on_aux_join (a :: sep') text []) as Hj.
    destruct (split_on_aux (a :: sep') text []) as [|p0 ps]; [congruence|].
    rewrite concat_keep_start, Hj. reflexivity.
Qed.

Lemma join_nil_sep (l : list pystr) : join [] l = concat l.
Proof.
  induction l as [|x l IH]; [reflexivity|].
  destruct l as [|y l]; simpl; [rewrite app_nil_r; reflexivity|].
  simpl in IH. rewrite IH. reflexivity.
Qed.

Lemma zlen_app (a b : pystr) : zlen (a ++ b) = zlen a + zlen b.
Proof. unfold zlen. rewrite length_app. lia. Qed.

Lemma zlen_nonneg (a : pystr) : 0 <= zlen a.
Proof. unfold zlen. lia. Qed.

(** Without a separator, windows whose total never exceeds [chunk_size]
    are never flushed: the whole run becomes one document. *)
Lemma merge_loop_fits (cs ov : Z) (splits docs cur : list pystr) (total : Z) :
  total = zlen (concat cur) ->
  zlen (concat cur) + zlen (concat splits) <= cs ->
  merge_loop cs ov [] splits docs cur total =
  match join_docs (cur ++ splits) [] with
  | Some doc => docs ++ [doc]
  | None => docs
  end.
Proof.
  revert docs cur total.
  induction splits as [|d rest IH]; intros docs cur total Ht Hle; simpl.
  - rewrite app_nil_r. reflexivity.
  - simpl in Hle. rewrite zlen_app in Hle.
    pose proof (zlen_nonneg (concat rest)).
    assert (Hsep : sep_len [] = 0) by reflexivity.
    assert (Hc : (total + zlen d + match cur with [] => 0 | _ :: _ => sep_len [] end
                  >? cs) = false).
    { rewrite Hsep. destruct cur; rewrite Z.gtb_ltb; apply Z.ltb_ge; lia. }
    rewrite Hc. rewrite Hsep.
    replace (total + zlen d + (if (1 <? length (cur ++ [d]))%nat then 0 else 0))
      with (zlen (concat (cur ++ [d]))).
    2:{ destruct (1 <? length (cur ++ [d]))%nat; rewrite concat_app, zlen_app; simpl;
        rewrite app_nil_r; lia. }
    rewrite IH; [rewrite <- app_assoc; reflexivity|reflexivity|].
    rewrite concat_app, zlen_app. simpl. rewrite app_nil_r. lia.
Qed.

Lemma merge_splits_fits (cs ov : Z) (splits : list pystr) :
  zlen (concat splits) <= cs ->
  merge_splits cs ov [] splits =
  match py_strip (concat splits) with [] => [] | t => [t] end.
Proof.
  intros H. unfold merge_splits. rewrite merge_loop_fits; [|reflexivity|simpl; exact H].
  unfold join_docs. rewrite join_nil_sep. simpl.
  destruct (py_strip (concat splits)); reflexivity.
Qed.

Lemma process_splits_all_small (cs ov : Z)
    (recur : option (pystr -> list pystr)) (splits good : list pystr) :
  Forall (fun s => zlen s < cs) splits ->
  process_splits cs ov recur splits good =
  match good ++ splits with
  | [] => []
  | _ => merge_splits cs ov [] (good ++ splits)
  end.
Proof.
  revert good. induction splits as [|s rest IH]; intros good Hs; simpl.
  - rewrite app_nil_r. reflexivity.
  - inversion Hs as [|? ? Hlt Hrest]; subst.
    assert (E : (zlen s <? cs) = true) by (apply Z.ltb_lt; exact Hlt).
    rewrite E, IH by exact Hrest. rewrite <- app_assoc. reflexivity.
Qed.

Lemma concat_pos (l : list pystr) :
  Forall (fun s : pystr => s <> []) l -> l <> [] -> 1 <= zlen (concat l).
Proof.
  intros Hf Hn. destruct l as [|x r]; [congruence|].
  inversion Hf as [|? ? Hx _]; subst. simpl. rewrite zlen_app.
  pose proof (zlen_nonneg (concat r)).
  destruct x; [congruence|]. unfold zlen at 1. simpl length. lia.
Qed.

(** With two pieces or more, each piece is strictly shorter than the
    whole text, hence than [chunk_size]. *)
Lemma pieces_small (cs : Z) (x y : pystr) (r : list pystr) :
  Forall (fun s : pystr => s <> []) (x :: y :: r) ->
  zlen (concat (x :: y :: r)) <= cs ->
  Forall (fun s => zlen s < cs) (x :: y :: r).
Proof.
  intros Hf Hle. apply Forall_forall. intros s Hs.
  destruct (list_elem_of_split _ _ Hs) as (l1 & l2 & Heq).
  rewrite Heq in Hf, Hle. rewrite concat_app in Hle. simpl in Hle.
  rewrite !zlen_app in Hle.
  apply Forall_app in Hf as [Hf1 Hf2]. inversion Hf2 as [|? ? _ Hf2']; subst.
  assert (Hlen : (length (l1 ++ s :: l2) >= 2)%nat) by (rewrite <- Heq; simpl; lia).
  rewrite length_app in Hlen. simpl in Hlen.
  destruct l1 as [|a l1].
  - destruct l2 as [|b l2]; [simpl in Hlen; lia|].
    pose proof (concat_pos (b :: l2) Hf2' ltac:(discriminate)).
    assert (zlen (concat (@nil pystr)) = 0) by reflexivity. lia.
  - pose proof (concat_pos (a :: l1) Hf1 ltac:(discriminate)).
    pose proof (zlen_nonneg (concat l2)). lia.
Qed.

Lemma strip_nonblank (t : pystr) :
  is_blank t = false ->
  match py_strip t with [] => [] | u => [u] end = [py_strip t].
Proof. unfold is_blank. destruct (py_strip t); [discriminate|reflexivity]. Qed.

Lemma process_splits_fits (cs ov : Z)
    (recur : option (pystr -> list pystr)) (splits : list pystr) (text : pystr) :
  concat splits = text ->
  Forall (fun s : pystr => s <> []) splits ->
  zlen text <= cs ->
  is_blank text = false ->
  (splits = [text] -> cs <= zlen text ->
   match recur with None => [text] | Some f => f text end = [py_strip text]) ->
  process_splits cs ov recur splits [] = [py_strip text].
Proof.
  intros Hc Hf Hle Hnb Hone.
  destruct splits as [|x [|y r]].
  - simpl in Hc. subst text. discriminate.
  - simpl in Hc. rewrite app_nil_r in Hc. subst x. simpl.
    destruct (zlen text <? cs) eqn:E.
    + simpl. rewrite merge_splits_fits by (simpl; rewrite app_nil_r; exact Hle).
      simpl. rewrite app_nil_r. apply strip_nonblank, Hnb.
    + apply Z.ltb_ge in E. rewrite Hone by (reflexivity || exact E).
      reflexivity.
  - rewrite <- Hc in Hle.
    rewrite process_splits_all_small by (apply pieces_small; assumption).
    simpl app. rewrite merge_splits_fits by exact Hle.
    rewrite Hc. apply strip_nonblank, Hnb.
Qed.

Lemma filter_singletons (text : pystr) :
  List.filter (fun s : pystr => match s with [] => false | _ => true end)
    (map (fun c => [c]) text) = map (fun c => [c]) text.
Proof. induction text as [|c t IH]; simpl; [reflexivity|rewrite IH; reflexivity]. Qed.

Lemma py_strip_single (c : ascii) : is_space c = false -> py_strip [c] = [c].
Proof. intros E. unfold py_strip. simpl. rewrite E. simpl. rewrite E. reflexivity. Qed.

Lemma py_strip_space (c : ascii) : is_space c = true -> py_strip [c] = [].
Proof. intros E. unfold py_strip. simpl. rewrite E. reflexivity. Qed.

(** [_split_text] on a non-blank text no longer than [chunk_size], with
    [""] among the separators, returns the stripped text alone. *)
Lemma split_rec_fits (cs ov : Z) (last_sep : pystr) (seps : list pystr) (text : pystr) :
  In [] seps -> zlen text <= cs -> is_blank text = false ->
  split_rec cs ov last_sep seps text = [py_strip text].
Proof.
  revert text. induction seps as [|s rest IH]; intros text Hin Hle Hnb.
  - destruct Hin.
  - destruct (split_text_with_regex_concat text s) as [Hc Hf].
    destruct s as [|a s'].
    + simpl. apply (process_splits_fits cs ov None _ text Hc Hf Hle Hnb).
      intros Hone _. unfold split_text_with_regex in Hone.
      rewrite filter_singletons in Hone.
      destruct text as [|c [|d t]]; simpl in Hone; try discriminate.
      rewrite py_strip_single; [reflexivity|].
      destruct (is_space c) eqn:E; [|reflexivity].
      unfold is_blank in Hnb. rewrite py_strip_space in Hnb by exact E. discriminate.
    + assert (Hin' : In [] rest) by (destruct Hin as [H|H]; [discriminate|exact H]).
      simpl. destruct (contains (a :: s') text).
      * apply (process_splits_fits cs ov _ _ text Hc Hf Hle Hnb).
        intros _ _. destruct rest as [|r0 rest']; [destruct Hin'|].
        apply IH; assumption.
      * apply IH; assumption.
Qed.

Lemma split_text_fits (tc : TextChunker) (text : pystr) :
  zlen text <= chunk_size tc -> is_blank text = false ->
  split_text (text_splitter tc) text = [py_strip text].
Proof.
  intros Hle Hnb. unfold split_text.
  apply split_rec_fits; [simpl; tauto|exact Hle|exact Hnb].
Qed.

(** C7: a non-blank text of length at most [chunk_size] yields exactly
    one chunk: the stripped text, with [chunk_index = 0] and
    [chunk_total = 1]. *)
Theorem chunk_text_single_chunk (tc : TextChunker) (text : pystr) (md : option metadata) :
  is_blank text = false ->
  zlen text <= chunk_size tc ->
  chunk_text tc text md =
    [{| c_text := py_strip text; c_metadata := chunk_metadata (base_metadata md) 0 1 |}] /\
  chunk_metadata (base_metadata md) 0 1 !! "chunk_index" = Some (PInt 0) /\
  chunk_metadata (base_metadata md) 0 1 !! "chunk_total" = Some (PInt 1).
Proof.
  intros Hnb Hle. split; [|split].
  - unfold chunk_text. rewrite Hnb, split_text_fits by assumption. reflexivity.
  - apply chunk_metadata_index.
  - apply chunk_metadata_total.
Qed.

Lemma chunk_text_single_chunk_witness :
  is_blank sample_text = false /\ zlen sample_text <= chunk_size sample_tc /\
  chunk_text sample_tc sample_text sample_md = [sample_chunk].
Proof.
  assert (Hle : zlen sample_text <= chunk_size sample_tc) by (vm_compute; discriminate).
  split; [exact sample_not_blank|]. split; [exact Hle|].
  exact (proj1 (chunk_text_single_chunk sample_tc sample_text sample_md sample_not_blank Hle)).
Defined.

(* ------------------------------------------------------------------ *)
(** ** The store manager *)
(* ------------------------------------------------------------------ *)

Ltac run_m :=
  unfold bind, ret, raise, get_mgr, get_disk, set_store, write_disk, print in *;
  simpl in *.

Lemma embed_documents_length (embed : pystr -> option (list Q))
    (texts : list pystr) (vs : list (list Q)) :
  embed_documents embed texts = Some vs -> length vs = length texts.
Proof.
  revert vs. induction texts as [|t r IH]; intros vs H; simpl in H.
  - injection H as <-. reflexivity.
  - destruct (embed t), (embed_documents embed r) eqn:E; try discriminate.
    injection H as <-. simpl. f_equal. apply IH. reflexivity.
Qed.

Lemma to_records_length (embed : pystr -> option (list Q))
    (chunks : list Chunk) (vs : list (list Q)) :
  embed_documents embed (map c_text chunks) = Some vs ->
  length (to_records chunks vs) = length chunks.
Proof.
  intros H. apply embed_documents_length in H. rewrite length_map in H.
  unfold to_records. rewrite length_zip_with. lia.
Qed.

Arguments embed_documents : simpl never.
Arguments to_records : simpl never.

(** Every store the manager holds and every snapshot on disk has at
    least one record. *)
Definition store_inv (w : World) : Prop :=
  (forall st, vector_store (mgr w) = Some st -> fs_records st <> []) /\
  (forall p st, disk w !! p = Some (Snapshot st) -> fs_records st <> []).

Lemma nonempty_of_length {A} (l : list A) (k : list Chunk) :
  length l = length k -> k <> [] -> l <> [].
Proof. intros H Hk ->. destruct k; simpl in H; [congruence|discriminate]. Qed.

Lemma create_inv (embed : pystr -> option (list Q)) (chunks : list Chunk) (w : World) :
  store_inv w -> store_inv (snd (create_vector_store embed chunks w)).
Proof.
  intros [Hs Hd]. unfold create_vector_store.
  destruct chunks as [|c0 cs] eqn:Hc; [run_m; split; assumption|].
  unfold faiss_from_documents. rewrite <- Hc.
  destruct (embed_documents embed (map c_text chunks)) as [vs|] eqn:E; run_m;
    [|split; assumption].
  destruct (forallb _ vs); run_m; [|split; assumption].
  split; [|exact Hd].
  intros st Hst. injection Hst as <-. simpl.
  apply (nonempty_of_length _ chunks); [apply (to_records_length embed); exact E|].
  rewrite Hc. discriminate.
Qed.

Lemma add_inv (embed : pystr -> option (list Q)) (chunks : list Chunk) (w : World) :
  store_inv w -> store_inv (snd (add_documents_to_store embed chunks w)).
Proof.
  intros Hi. pose proof Hi as [Hs Hd]. unfold add_documents_to_store.
  destruct chunks as [|c0 cs] eqn:Hc; [run_m; exact Hi|].
  unfold bind at 1, get_mgr.
  destruct (vector_store (mgr w)) as [st|] eqn:Hv.
  - unfold faiss_add_documents.
    destruct (embed_documents embed (map c_text (c0 :: cs))); run_m; [|exact Hi].
    destruct (forallb _ _); run_m; [|exact Hi].
    split; [|exact Hd].
    intros st' Hst. injection Hst as <-. simpl.
    intros Happ. apply app_eq_nil in Happ as [Hn _]. exact (Hs st eq_refl Hn).
  - rewrite <- Hc. apply create_inv, Hi.
Qed.

Lemma search_state (embed : pystr -> option (list Q)) (q : pystr) (k : option Z) (w : World) :
  snd (search_similar_documents embed q k w) = w.
Proof.
  unfold search_similar_documents, faiss_search. run_m.
  destruct (vector_store (mgr w)); run_m; [|reflexivity].
  destruct (embed q); run_m; [|reflexivity].
  destruct (negb _); run_m; [reflexivity|].
  destruct (_ <=? 0); reflexivity.
Qed.

Lemma save_inv (f : pystr) (w : World) :
  store_inv w -> store_inv (snd (save_vector_store f w)).
Proof.
  intros Hi. pose proof Hi as [Hs Hd]. unfold save_vector_store. run_m.
  destruct (vector_store (mgr w)) as [st|] eqn:Hv; run_m; [|exact Hi].
  split; [cbn; rewrite Hv; exact Hs|].
  intros p st' Hp. simpl in Hp.
  destruct (decide (p = path_join (store_path (mgr w)) f)) as [->|Hne].
  - rewrite lookup_insert_eq in Hp. injection Hp as <-. exact (Hs st eq_refl).
  - rewrite lookup_insert_ne in Hp by congruence. exact (Hd p st' Hp).
Qed.

Lemma load_inv (f : pystr) (w : World) :
  store_inv w -> store_inv (snd (load_vector_store f w)).
Proof.
  intros Hi. pose proof Hi as [Hs Hd]. unfold load_vector_store. run_m.
  destruct (disk w !! path_join (store_path (mgr w)) f) as [[st|]|] eqn:Hp; run_m;
    try exact Hi.
  split; [|exact Hd].
  intros st' Hst. injection Hst as <-. exact (Hd _ st Hp).
Qed.

Lemma reachable_inv (embed : pystr -> option (list Q)) (w : World) :
  reachable embed w -> store_inv w.
Proof.
  induction 1 as [| w _ [_ Hd] | w c _ IH | w c _ IH | w q k _ IH | w f _ IH
                  | w f _ IH | w p e _ [Hs Hd]].
  - split; [discriminate|]. intros p st H. simpl in H. rewrite lookup_empty in H.
    discriminate.
  - split; [discriminate|exact Hd].
  - apply create_inv, IH.
  - apply add_inv, IH.
  - rewrite search_state. exact IH.
  - apply save_inv, IH.
  - apply load_inv, IH.
  - split; [exact Hs|]. simpl. intros p' st H.
    destruct (decide (p' = p)) as [->|Hne].
    + rewrite lookup_insert_eq in H. discriminate.
    + rewrite lookup_insert_ne in H by congruence. exact (Hd p' st H).
Qed.

(** C2: in any world the program can reach, a search while the store
    is empty ([get_store_size] is 0) returns [[]], for every query and
    every [top_k], and changes nothing. *)
Theorem search_empty_store (embed : pystr -> option (list Q)) (w : World)
    (query : pystr) (top_k : option Z) :
  reachable embed w ->
  get_store_size w = 0%nat ->
  search_similar_documents embed query top_k w = (inr [], w).
Proof.
  intros Hr Hz. destruct (reachable_inv embed w Hr) as [Hs _].
  unfold get_store_size in Hz. unfold search_similar_documents. run_m.
  destruct (vector_store (mgr w)) as [st|] eqn:Hv; [|reflexivity].
  exfalso. apply (Hs st eq_refl). apply length_zero_iff_nil. exact Hz.
Qed.

Definition start_world : World :=
  {| mgr := fresh_manager; disk := ∅; stdout := [] |}.

Definition const_embed : pystr -> option (list Q) := fun _ => Some [1%Q; 0%Q].

Lemma search_empty_store_witness :
  reachable const_embed start_world /\ get_store_size start_world = 0%nat /\
  search_similar_documents const_embed (S_ "what is rag?") (Some 3) start_world
  = (inr [], start_world).
Proof.
  assert (Hr : reachable const_embed start_world) by apply R_init.
  assert (Hz : get_store_size start_world = 0%nat) by reflexivity.
  split; [exact Hr|]. split; [exact Hz|].
  exact (search_empty_store const_embed start_world (S_ "what is rag?") (Some 3) Hr Hz).
Defined.

(** C5: an uninitialised store has size 0; a successful
    [add_documents_to_store] of N chunks into an empty store returns N
    and leaves size N; adding no chunk, in any world (whatever the store
    holds), returns 0 and changes nothing, so the size stays as it was. *)
Theorem add_documents_store_size (embed : pystr -> option (list Q)) (w w' : World)
    (chunks : list Chunk) (n : nat) :
  get_store_size w = 0%nat ->
  add_documents_to_store embed chunks w = (inr n, w') ->
  n = length chunks /\ get_store_size w' = length chunks /\
  (forall w0, vector_store (mgr w0) = None -> get_store_size w0 = 0%nat) /\
  (forall w0, add_documents_to_store embed [] w0 = (inr 0%nat, w0) /\
              get_store_size (snd (add_documents_to_store embed [] w0)) =
                get_store_size w0).
Proof.
  intros Hz Hadd.
  split; [|split; [|split; [intros w0 H0; unfold get_store_size; rewrite H0; reflexivity
                           |intros w0; split; reflexivity]]].
  - unfold add_documents_to_store, create_vector_store, faiss_from_documents,
      faiss_add_documents in Hadd.
    destruct chunks as [|c0 cs]; run_m; [injection Hadd as H1 H2; subst; reflexivity|].
    destruct (vector_store (mgr w)); run_m;
      (destruct (embed_documents embed _); run_m; [|discriminate]);
      (destruct (forallb _ _); run_m; [|discriminate]);
      injection Hadd as H1 H2; subst; reflexivity.
  - unfold get_store_size in Hz |- *.
    unfold add_documents_to_store, create_vector_store, faiss_from_documents,
      faiss_add_documents in Hadd.
    destruct chunks as [|c0 cs]; run_m.
    { injection Hadd as H1 H2; subst. exact Hz. }
    destruct (vector_store (mgr w)) as [st|];
      (destruct (embed_documents embed _) as [vs|] eqn:E;
       run_m; [|discriminate]);
      (destruct (forallb _ _); run_m; [|discriminate]);
      injection Hadd as H1 H2; subst; simpl.
    + rewrite length_app, (to_records_length embed (c0 :: cs) _ E). simpl. lia.
    + exact (to_records_length embed (c0 :: cs) _ E).
Qed.

Definition sample_add : list Chunk := [sample_chunk].

(** Three chunks of one document, as [chunk_text] labels them. *)
Definition sample_add3 : list Chunk :=
  build_chunks ∅ [S_ "alpha"; S_ "beta"; S_ "gamma"].

Lemma add_documents_store_size_witness :
  length sample_add3 = 3%nat /\
  get_store_size start_world = 0%nat /\
  fst (add_documents_to_store const_embed sample_add3 start_world) = inr 3%nat /\
  get_store_size (snd (add_documents_to_store const_embed sample_add3 start_world)) = 3%nat /\
  get_store_size (snd (add_documents_to_store const_embed []
                         (snd (add_documents_to_store const_embed sample_add3 start_world))))
    = 3%nat.
Proof.
  assert (Hl : length sample_add3 = 3%nat) by (vm_compute; reflexivity).
  assert (Hz : get_store_size start_world = 0%nat) by reflexivity.
  assert (Ha : add_documents_to_store const_embed sample_add3 start_world
               = (inr 3%nat, snd (add_documents_to_store const_embed sample_add3 start_world)))
    by (vm_compute; reflexivity).
  destruct (add_documents_store_size const_embed start_world _ sample_add3 3%nat Hz Ha)
    as (_ & Hs & _ & Hnil).
  rewrite Hl in Hs.
  split; [exact Hl|]. split; [exact Hz|]. split; [rewrite Ha; reflexivity|].
  split; [exact Hs|].
  rewrite (proj2 (Hnil _)). exact Hs.
Defined.

(** A world where the manager already holds one record and the default
    snapshot path holds files [load_local] cannot read. *)
Definition one_record_store : FaissStore :=
  {| fs_dim := 2; fs_records := [{| vr_text := S_ "Hello world"; vr_metadata := ∅;
                                    vr_embedding := [1%Q; 0%Q] |}] |}.

(** [str(e)] of the [RuntimeError] faiss raises on a cut-off index file. *)
Definition damaged_msg_text : string :=
  "Error in faiss::FileIOReader: read error in vector_store/faiss_index/index.faiss".
Definition damage_msg : pystr := S_ damaged_msg_text.

Definition damaged_world : World :=
  {| mgr := {| vector_store := Some one_record_store;
               store_path := Config_VECTOR_STORE_PATH |};
     disk := {[ path_join Config_VECTOR_STORE_PATH faiss_index_default :=
                Unreadable damage_msg ]};
     stdout := [] |}.

(** C6 fails: on an existing but unreadable snapshot [load_vector_store]
    raises nothing, it prints the error and returns [False]; and the
    failed load keeps the store it had, which need not be empty. *)
Lemma load_unreadable_no_error :
  fst (load_vector_store faiss_index_default damaged_world) = inr false /\
  stdout (snd (load_vector_store faiss_index_default damaged_world)) =
    [S_ "Error loading vector store: " ++ damage_msg] /\
  get_store_size (snd (load_vector_store faiss_index_default damaged_world)) = 1%nat.
Proof. vm_compute. split; [reflexivity|]. split; reflexivity. Qed.

(** C6, as the code does it: [load_vector_store] never raises. With no
    snapshot at the path it returns [False] and changes nothing; with an
    unreadable one it prints [Error loading vector store: ] followed by
    [str(e)], returns [False] and leaves the manager and the disk as they
    were (so a fresh manager stays uninitialised, size 0); with a
    readable one it installs it, prints nothing and returns [True]. *)
Theorem load_vector_store_outcomes (w : World) (filename : pystr) :
  let p := path_join (store_path (mgr w)) filename in
  (exists b, fst (load_vector_store filename w) = inr b) /\
  (disk w !! p = None -> load_vector_store filename w = (inr false, w)) /\
  (forall e, disk w !! p = Some (Unreadable e) ->
     fst (load_vector_store filename w) = inr false /\
     mgr (snd (load_vector_store filename w)) = mgr w /\
     disk (snd (load_vector_store filename w)) = disk w /\
     stdout (snd (load_vector_store filename w)) =
       stdout w ++ [S_ "Error loading vector store: " ++ e] /\
     (mgr w = fresh_manager ->
        get_store_size (snd (load_vector_store filename w)) = 0%nat)) /\
  (forall st, disk w !! p = Some (Snapshot st) ->
     fst (load_vector_store filename w) = inr true /\
     vector_store (mgr (snd (load_vector_store filename w))) = Some st /\
     disk (snd (load_vector_store filename w)) = disk w /\
     stdout (snd (load_vector_store filename w)) = stdout w).
Proof.
  intros p. unfold load_vector_store. run_m. fold p.
  destruct (disk w !! p) as [[st|e]|] eqn:Hp; run_m.
  - split; [eauto|]. split; [discriminate|]. split; [intros e H; discriminate|].
    intros st' H. injection H as <-. repeat split; reflexivity.
  - split; [eauto|]. split; [discriminate|]. split; [|intros st' H; discriminate].
    intros e' H. injection H as <-. split; [reflexivity|].
    split; [destruct (mgr w); reflexivity|].
    split; [reflexivity|]. split; [reflexivity|].
    intros Hf. unfold get_store_size. simpl. rewrite Hf. reflexivity.
  - split; [eauto|]. split; [intros _; destruct w; reflexivity|].
    split; [intros e H; discriminate|]. intros st' H. discriminate.
Qed.

(* ------------------------------------------------------------------ *)
(** ** Answers, sources and confidence *)
(* ------------------------------------------------------------------ *)

Lemma text_preview_cases (t : pystr) :
  ((length t <= 200)%nat /\ text_preview t = t) \/
  ((200 < length t)%nat /\ text_preview t = take 200 t ++ S_ "..." /\
   length (text_preview t) = 203%nat).
Proof.
  unfold text_preview. destruct (200 <? length t)%nat eqn:E.
  - apply Nat.ltb_lt in E. right. split; [exact E|]. split; [reflexivity|].
    rewrite length_app, length_take, Nat.min_l by lia. reflexivity.
  - apply Nat.ltb_ge in E. left. split; [exact E|reflexivity].
Qed.

(** C8: [_format_sources] renders the i-th result with the filename of
    its metadata ("Unknown" when absent), its chunk_index (0 when
    absent), a preview that is the text itself up to 200 characters and
    otherwise its first 200 characters followed by "...", and its
    similarity score unchanged. *)
Theorem format_sources_spec (chunks : list ResultDict) (i : nat) (c : ResultDict) :
  chunks !! i = Some c ->
  length (format_sources chunks) = length chunks /\
  exists s, format_sources chunks !! i = Some s /\
    (forall v, rd_meta c !! "filename" = Some v -> src_filename s = v) /\
    (rd_meta c !! "filename" = None -> src_filename s = PStr (S_ "Unknown")) /\
    (forall v, rd_meta c !! "chunk_index" = Some v -> src_chunk_index s = v) /\
    (rd_meta c !! "chunk_index" = None -> src_chunk_index s = PInt 0) /\
    (((length (rd_text c) <= 200)%nat /\ src_text_preview s = rd_text c) \/
     ((200 < length (rd_text c))%nat /\
      src_text_preview s = take 200 (rd_text c) ++ S_ "...")) /\
    (forall d, rd_score c = Some d -> src_similarity_score s = d).
Proof.
  intros H. split; [apply length_map|].
  unfold format_sources. rewrite list_lookup_fmap, H. simpl.
  eexists. split; [reflexivity|]. simpl. unfold dict_get, score_or_zero.
  split; [intros v Hv; rewrite Hv; reflexivity|].
  split; [intros Hv; rewrite Hv; reflexivity|].
  split; [intros v Hv; rewrite Hv; reflexivity|].
  split; [intros Hv; rewrite Hv; reflexivity|].
  split; [|intros d Hd; rewrite Hd; reflexivity].
  destruct (text_preview_cases (rd_text c)) as [[? ?]|[? [? _]]]; [left|right]; auto.
Qed.

Definition long_text : pystr := repeat "a"%char 250.

Definition sample_results : list ResultDict :=
  [{| rd_text := long_text;
      rd_metadata := Some {[ "filename" := PStr (S_ "a.txt") ]};
      rd_score := Some (3 # 10) |}].

Lemma format_sources_spec_witness :
  sample_results !! 0%nat = Some {| rd_text := long_text;
      rd_metadata := Some {[ "filename" := PStr (S_ "a.txt") ]};
      rd_score := Some (3 # 10) |} /\
  length (format_sources sample_results) = 1%nat.
Proof.
  assert (H : sample_results !! 0%nat = Some {| rd_text := long_text;
      rd_metadata := Some {[ "filename" := PStr (S_ "a.txt") ]};
      rd_score := Some (3 # 10) |}) by reflexivity.
  split; [exact H|]. exact (proj1 (format_sources_spec sample_results 0 _ H)).
Defined.

Lemma calculate_confidence_bands (a : Q) :
  (a < 1 # 2 -> calculate_confidence a = 9 # 10)%Q /\
  (1 # 2 <= a -> a < 1 -> calculate_confidence a = 7 # 10)%Q /\
  (1 <= a -> a < 3 # 2 -> calculate_confidence a = 1 # 2)%Q /\
  (3 # 2 <= a -> calculate_confidence a = 3 # 10)%Q.
Proof.
  unfold calculate_confidence, Qltb.
  assert (Hb : forall x y, negb (Qle_bool y x) = true <-> (x < y)%Q).
  { intros x y. rewrite negb_true_iff. split.
    - intros Hf. apply Qnot_le_lt. intros Hle. apply Qle_bool_iff in Hle. congruence.
    - intros Hlt. destruct (Qle_bool y x) eqn:E; [|reflexivity].
      apply Qle_bool_iff in E. exfalso. apply (Qlt_not_le _ _ Hlt E). }
  assert (Hf : forall x y, (y <= x)%Q -> negb (Qle_bool y x) = false).
  { intros x y Hle. apply Qle_bool_iff in Hle. rewrite Hle. reflexivity. }
  split; [|split; [|split]].
  - intros H. apply Hb in H. rewrite H. reflexivity.
  - intros H1 H2. rewrite (Hf _ _ H1). apply Hb in H2. rewrite H2. reflexivity.
  - intros H1 H2.
    assert (Hh : (1 # 2 <= 1)%Q) by (vm_compute; intro; discriminate).
    rewrite (Hf _ _ (Qle_trans _ _ _ Hh H1)).
    rewrite (Hf _ _ H1). apply Hb in H2. rewrite H2. reflexivity.
  - intros H.
    assert (Hh : (1 # 2 <= 3 # 2)%Q) by (vm_compute; intro; discriminate).
    assert (H1 : (1 <= 3 # 2)%Q) by (vm_compute; intro; discriminate).
    rewrite (Hf _ _ (Qle_trans _ _ _ Hh H)).
    rewrite (Hf _ _ (Qle_trans _ _ _ H1 H)).
    rewrite (Hf _ _ H). reflexivity.
Qed.


Definition failing_llm : list message -> llm_outcome :=
  fun _ => LLMRaise (S_ "Request timed out.").

Definition answering_llm : list message -> llm_outcome :=
  fun _ => LLMContent (S_ "The fox jumps.").



Definition sample_context : list ContextPart :=
  [{| cp_index := 1; cp_source := PStr (S_ "a.txt"); cp_section := PInt 1;
      cp_text := long_text |}].


(* ================================================================== *)
(** * Further properties of the code *)
(* ================================================================== *)

(* ------------------------------------------------------------------ *)
(** ** TextChunker construction *)
(* ------------------------------------------------------------------ *)

(** X1: with the overlap left at its default of 200, any chunk size
    from 1 to 199 is rejected by the splitter's constructor, with
    langchain's message naming both values. *)
Theorem make_text_chunker_small_size_rejected (c : Z) :
  0 < c < 200 ->
  make_text_chunker (Some c) None =
    inl (ValueError (S_ "Got a larger chunk overlap (200) than chunk size (" ++
                     z_str c ++ S_ "), should be smaller.")).
Proof.
  intros Hc. unfold make_text_chunker, int_or, Config_CHUNK_OVERLAP.
  destruct c as [|p|p] eqn:Ec; try lia. rewrite <- Ec.
  destruct (c <=? 0) eqn:E1; [apply Z.leb_le in E1; lia|].
  destruct (200 >? c) eqn:E3; [reflexivity|].
  rewrite Z.gtb_ltb in E3. apply Z.ltb_ge in E3. lia.
Qed.

Lemma make_text_chunker_small_size_rejected_witness :
  (0 < 100 < 200) /\
  make_text_chunker (Some 100) None =
    inl (ValueError (S_ "Got a larger chunk overlap (200) than chunk size (100), should be smaller.")).
Proof.
  assert (H : 0 < 100 < 200) by lia.
  split; [exact H|]. exact (make_text_chunker_small_size_rejected 100 H).
Defined.

(* ------------------------------------------------------------------ *)
(** ** str.strip *)
(* ------------------------------------------------------------------ *)

Definition head_not_space (l : pystr) : Prop :=
  match l with [] => True | c :: _ => is_space c = false end.

Lemma lstrip_split (s : pystr) :
  exists a, s = a ++ lstrip s /\ Forall (fun c => is_space c = true) a.
Proof.
  induction s as [|c r [a [Ha Hf]]]; [exists []; split; [reflexivity|constructor]|].
  simpl. destruct (is_space c) eqn:E.
  - exists (c :: a). split; [simpl; congruence|constructor; assumption].
  - exists []. split; [reflexivity|constructor].
Qed.

Lemma lstrip_head (s : pystr) : head_not_space (lstrip s).
Proof.
  induction s as [|c r IH]; [exact I|]. simpl.
  destruct (is_space c) eqn:E; [exact IH|exact E].
Qed.

Lemma lstrip_fix (s : pystr) : head_not_space s -> lstrip s = s.
Proof. destruct s as [|c r]; [reflexivity|]. simpl. intros ->. reflexivity. Qed.

Lemma py_strip_twice (s : pystr) : py_strip (py_strip s) = py_strip s.
Proof.
  destruct (lstrip_split (rev (lstrip s))) as [a2 [H2 _]].
  set (t := lstrip s) in *. set (u := lstrip (rev t)) in *.
  assert (Ht : t = rev u ++ rev a2).
  { rewrite <- rev_app_distr, <- H2, rev_involutive. reflexivity. }
  assert (Hu : head_not_space (rev u)).
  { pose proof (lstrip_head s) as Hh. fold t in Hh. rewrite Ht in Hh.
    destruct (rev u); [exact I|exact Hh]. }
  unfold py_strip. fold t. fold u.
  rewrite (lstrip_fix (rev u) Hu), rev_involutive.
  rewrite (lstrip_fix u); [reflexivity|]. apply lstrip_head.
Qed.

(** X2: [str.strip()] is idempotent, and it only removes whitespace
    from the two ends: the text is the stripped text between two runs of
    whitespace. *)
Theorem py_strip_idempotent (s : pystr) :
  py_strip (py_strip s) = py_strip s /\
  exists a b, s = a ++ py_strip s ++ b /\ Forall (fun c => is_space c = true) (a ++ b).
Proof.
  destruct (lstrip_split s) as [a1 [H1 F1]].
  destruct (lstrip_split (rev (lstrip s))) as [a2 [H2 F2]].
  set (t := lstrip s) in *. set (u := lstrip (rev t)) in *.
  assert (Ht : t = rev u ++ rev a2).
  { rewrite <- rev_app_distr, <- H2, rev_involutive. reflexivity. }
  assert (Hu : head_not_space (rev u)).
  { pose proof (lstrip_head s) as Hh. fold t in Hh. rewrite Ht in Hh.
    destruct (rev u); [exact I|exact Hh]. }
  unfold py_strip. fold t. fold u. split.
  - rewrite (lstrip_fix (rev u) Hu), rev_involutive.
    rewrite (lstrip_fix u); [reflexivity|]. apply lstrip_head.
  - exists a1, (rev a2). split.
    + rewrite H1 at 1. fold t. rewrite Ht. reflexivity.
    + apply Forall_app. split; [exact F1|]. apply Forall_rev. exact F2.
Qed.

(* ------------------------------------------------------------------ *)
(** ** Previews and confidence *)
(* ------------------------------------------------------------------ *)

(** X3: a source's [text_preview] has at most 203 characters and starts
    with the first 200 characters of the chunk text. *)
Theorem text_preview_bounds (t : pystr) :
  (length (text_preview t) <= 203)%nat /\ take 200 (text_preview t) = take 200 t.
Proof.
  unfold text_preview. destruct (200 <? length t)%nat eqn:E.
  - apply Nat.ltb_lt in E. rewrite length_app, length_take, Nat.min_l by lia.
    split; [simpl; lia|].
    rewrite take_app_le by (rewrite length_take; lia).
    rewrite take_take, Nat.min_id. reflexivity.
  - apply Nat.ltb_ge in E. split; [lia|reflexivity].
Qed.

Lemma confidence_cases (a : Q) :
  ((a < 1 # 2)%Q /\ calculate_confidence a = 9 # 10) \/
  ((1 # 2 <= a)%Q /\ (a < 1)%Q /\ calculate_confidence a = 7 # 10) \/
  ((1 <= a)%Q /\ (a < 3 # 2)%Q /\ calculate_confidence a = 1 # 2) \/
  ((3 # 2 <= a)%Q /\ calculate_confidence a = 3 # 10).
Proof.
  destruct (calculate_confidence_bands a) as (B1 & B2 & B3 & B4).
  destruct (Qlt_le_dec a (1 # 2)); [left; auto|right].
  destruct (Qlt_le_dec a 1); [left; auto|right].
  destruct (Qlt_le_dec a (3 # 2)); [left; auto|right; auto].
Qed.

(** X4: [_calculate_confidence] never increases as the average
    distance grows, and its value lies between 0.3 and 0.9. *)
Theorem calculate_confidence_antitone (a b : Q) :
  (a <= b)%Q ->
  (calculate_confidence b <= calculate_confidence a)%Q /\
  (3 # 10 <= calculate_confidence a <= 9 # 10)%Q.
Proof.
  intros Hab.
  destruct (confidence_cases a) as [(Ha & Ea)|[(Ha & Ha' & Ea)|[(Ha & Ha' & Ea)|(Ha & Ea)]]];
  destruct (confidence_cases b) as [(Hb & Eb)|[(Hb & Hb' & Eb)|[(Hb & Hb' & Eb)|(Hb & Eb)]]];
  rewrite Ea, Eb; split; lra.
Qed.

Lemma calculate_confidence_antitone_witness :
  ((2 # 5) <= 2)%Q /\
  (calculate_confidence 2 <= calculate_confidence (2 # 5))%Q /\
  (3 # 10 <= calculate_confidence (2 # 5) <= 9 # 10)%Q.
Proof.
  assert (H : ((2 # 5) <= 2)%Q) by (vm_compute; intro; discriminate).
  split; [exact H|]. exact (calculate_confidence_antitone (2 # 5) 2 H).
Defined.

(* ------------------------------------------------------------------ *)
(** ** Chunks the splitter emits *)
(* ------------------------------------------------------------------ *)

(** A chunk as [_join_docs] leaves it: non-empty, nothing to strip. *)
Definition stripped_chunk (d : pystr) : Prop := d <> [] /\ py_strip d = d.

Lemma join_docs_stripped (docs : list pystr) (sep t : pystr) :
  join_docs docs sep = Some t -> stripped_chunk t.
Proof.
  unfold join_docs. destruct (py_strip (join sep docs)) as [|c r] eqn:E; [discriminate|].
  intros H. injection H as <-. split; [discriminate|].
  rewrite <- E. apply py_strip_twice.
Qed.

Lemma merge_loop_stripped (cs ov : Z) (sep : pystr) (splits docs cur : list pystr) (total : Z) :
  Forall stripped_chunk docs ->
  Forall stripped_chunk (merge_loop cs ov sep splits docs cur total).
Proof.
  assert (Hj : forall ds cr, Forall stripped_chunk ds ->
            Forall stripped_chunk (match join_docs cr sep with
                                   | Some doc => ds ++ [doc] | None => ds end)).
  { intros ds cr Hd. destruct (join_docs cr sep) as [t|] eqn:E; [|exact Hd].
    apply Forall_app. split; [exact Hd|]. constructor; [|constructor].
    exact (join_docs_stripped _ _ _ E). }
  revert docs cur total. induction splits as [|d rest IH]; intros docs cur total Hd.
  - apply Hj, Hd.
  - simpl. destruct (_ >? cs).
    + destruct cur as [|c0 cr]; [apply IH, Hd|].
      destruct (pop_front cs ov sep (c0 :: cr) total (zlen d)). apply IH, Hj, Hd.
    + apply IH, Hd.
Qed.

(** X5: [_merge_splits] only emits non-empty chunks with no leading or
    trailing whitespace, whatever the separator and the sizes. *)
Theorem merge_splits_stripped (cs ov : Z) (sep : pystr) (splits : list pystr) :
  Forall stripped_chunk (merge_splits cs ov sep splits).
Proof. apply merge_loop_stripped. constructor. Qed.

Lemma merge_splits_all_stripped (cs ov : Z) (sep : pystr) (splits : list pystr) :
  Forall stripped_chunk (merge_splits cs ov sep splits).
Proof. apply merge_loop_stripped. constructor. Qed.

Lemma process_splits_forall (P : pystr -> Prop) (cs ov : Z)
    (recur : option (pystr -> list pystr)) (splits good : list pystr) :
  (forall d, stripped_chunk d -> P d) ->
  (forall s, In s splits -> cs <= zlen s ->
     Forall P (match recur with None => [s] | Some f => f s end)) ->
  Forall P (process_splits cs ov recur splits good).
Proof.
  intros HP. revert good.
  assert (Hm : forall good, Forall P (match good with
                                      | [] => [] | _ => merge_splits cs ov [] good end)).
  { intros good. destruct good; [constructor|].
    eapply Forall_impl; [apply merge_splits_all_stripped|exact HP]. }
  induction splits as [|s rest IH]; intros good Hs; simpl.
  - apply Hm.
  - destruct (zlen s <? cs) eqn:E.
    + apply IH. intros s' Hin. apply Hs. right. exact Hin.
    + apply Z.ltb_ge in E. apply Forall_app. split; [apply Hm|].
      apply Forall_app. split; [apply Hs; [left; reflexivity|exact E]|].
      apply IH. intros s' Hin. apply Hs. right. exact Hin.
Qed.

Lemma split_on_empty_singletons (text s : pystr) :
  In s (split_text_with_regex text []) -> exists c, s = [c].
Proof.
  unfold split_text_with_regex. rewrite filter_singletons.
  intros H. apply in_map_iff in H as (c & <- & _). eauto.
Qed.

Lemma split_rec_forall (P : pystr -> Prop) (cs ov : Z) (last_sep : pystr)
    (seps : list pystr) (text : pystr) :
  (forall d, stripped_chunk d -> P d) ->
  (forall c, cs <= 1 -> P [c]) ->
  In [] seps ->
  Forall P (split_rec cs ov last_sep seps text).
Proof.
  intros HP H1. revert text. induction seps as [|s rest IH]; intros text Hin.
  - destruct Hin.
  - destruct s as [|a s'].
    + simpl. apply process_splits_forall; [exact HP|].
      intros s Hs Hle. destruct (split_on_empty_singletons text s Hs) as [c ->].
      constructor; [|constructor]. apply H1. exact Hle.
    + assert (Hin' : In [] rest) by (destruct Hin as [H|H]; [discriminate|exact H]).
      simpl. destruct (contains (a :: s') text).
      * apply process_splits_forall; [exact HP|]. intros s _ _.
        destruct rest as [|r0 rest']; [destruct Hin'|]. apply IH, Hin'.
      * apply IH, Hin'.
Qed.

Lemma in_chunk_text (tc : TextChunker) (text : pystr) (md : option metadata) (c : Chunk) :
  In c (chunk_text tc text md) -> In (c_text c) (split_text (text_splitter tc) text).
Proof.
  unfold chunk_text. destruct (is_blank text); [intros []|].
  intros H. apply list_elem_of_In, list_elem_of_lookup in H as [i Hi].
  destruct (build_chunks_lookup _ _ _ _ Hi) as (t & Ht & ->). simpl.
  apply list_elem_of_In, list_elem_of_lookup. eauto.
Qed.

(** X6: every chunk [chunk_text] returns has a non-empty text; with a
    chunk size of at least 2 the text also has no leading or trailing
    whitespace. *)
Theorem chunk_text_texts_nonempty (tc : TextChunker) (text : pystr) (md : option metadata)
    (c : Chunk) :
  In c (chunk_text tc text md) ->
  c_text c <> [] /\ (2 <= chunk_size tc -> py_strip (c_text c) = c_text c).
Proof.
  intros Hc. apply in_chunk_text in Hc. unfold split_text in Hc. simpl in Hc.
  set (seps := [[nl; nl]; [nl]; S_ ". "; S_ " "; []]) in Hc.
  assert (Hin : In [] seps) by (simpl; tauto).
  split.
  - assert (Hne := split_rec_forall (fun d => d <> []) (chunk_size tc) (chunk_overlap tc)
                     [] seps text (fun d Hd => proj1 Hd) (fun c _ => ltac:(discriminate)) Hin).
    rewrite Forall_forall in Hne. apply Hne. apply list_elem_of_In. exact Hc.
  - intros H2.
    assert (Hs := split_rec_forall stripped_chunk (chunk_size tc) (chunk_overlap tc)
                    [] seps text (fun d Hd => Hd) (fun c Hle => ltac:(exfalso; lia)) Hin).
    rewrite Forall_forall in Hs. apply Hs. apply list_elem_of_In. exact Hc.
Qed.

Lemma chunk_text_texts_nonempty_witness :
  In sample_chunk (chunk_text sample_tc sample_text sample_md) /\
  c_text sample_chunk <> [] /\ py_strip (c_text sample_chunk) = c_text sample_chunk.
Proof.
  assert (H : In sample_chunk (chunk_text sample_tc sample_text sample_md))
    by (vm_compute; left; reflexivity).
  destruct (chunk_text_texts_nonempty sample_tc sample_text sample_md sample_chunk H)
    as [H1 H2].
  split; [exact H|]. split; [exact H1|]. apply H2. vm_compute. discriminate.
Defined.

(* ------------------------------------------------------------------ *)
(** ** File names and extensions *)
(* ------------------------------------------------------------------ *)

Lemma rfind_from_notin (c : ascii) (s : pystr) (k : nat) (acc : Z) :
  ~ In c s -> rfind_from c s k acc = acc.
Proof.
  revert k acc. induction s as [|d r IH]; intros k acc Hn; simpl; [reflexivity|].
  destruct (ascii_dec c d) as [->|Hne]; [exfalso; apply Hn; left; reflexivity|].
  apply IH. intros H. apply Hn. right. exact H.
Qed.

Lemma rfind_from_app (c : ascii) (p l : pystr) (k : nat) (acc : Z) :
  rfind_from c (p ++ l) k acc = rfind_from c l (k + length p) (rfind_from c p k acc).
Proof.
  revert k acc. induction p as [|d r IH]; intros k acc; simpl.
  - rewrite Nat.add_0_r. reflexivity.
  - rewrite IH. f_equal. lia.
Qed.

Lemma rfind_last (c : ascii) (p e : pystr) :
  ~ In c e -> rfind c (p ++ c :: e) = Z.of_nat (length p).
Proof.
  intros Hn. unfold rfind. rewrite rfind_from_app. simpl.
  destruct (ascii_dec c c) as [_|Hne]; [|congruence].
  apply rfind_from_notin, Hn.
Qed.

Lemma rfind_from_spec (c : ascii) (s : pystr) (k : nat) (acc : Z) :
  (rfind_from c s k acc = acc /\ ~ In c s) \/
  exists i, rfind_from c s k acc = Z.of_nat (k + i) /\ s !! i = Some c /\
            ~ In c (drop (S i) s).
Proof.
  revert k acc. induction s as [|d r IH]; intros k acc; simpl.
  - left. split; [reflexivity|tauto].
  - destruct (IH (S k) (if ascii_dec c d then Z.of_nat k else acc))
      as [[Hr Hn]|(i & Hr & Hi & Hn)].
    + rewrite Hr. destruct (ascii_dec c d) as [->|Hne].
      * right. exists 0%nat. rewrite Nat.add_0_r. split; [reflexivity|].
        split; [reflexivity|exact Hn].
      * left. split; [reflexivity|]. intros [H|H]; [congruence|tauto].
    + right. exists (S i). rewrite Hr. split; [f_equal; lia|]. split; assumption.
Qed.

Lemma rfind_spec (c : ascii) (s : pystr) :
  (rfind c s = -1 /\ ~ In c s) \/
  exists i, rfind c s = Z.of_nat i /\ s !! i = Some c /\ ~ In c (drop (S i) s).
Proof. apply rfind_from_spec. Qed.

Lemma in_drop_in {A} (x : A) (n : nat) (l : list A) : In x (drop n l) -> In x l.
Proof.
  intros H. rewrite <- (take_drop n l). apply in_or_app. right. exact H.
Qed.

Lemma dot_not_slash : dot <> slash.
Proof. discriminate. Qed.

(** X7: [os.path.splitext] splits a path into a root and an extension
    that concatenate back to the path; the extension is empty or a dot
    followed by characters that are neither dots nor slashes. *)
Theorem splitext_parts (p : pystr) :
  fst (splitext p) ++ snd (splitext p) = p /\
  (snd (splitext p) = [] \/
   exists e, snd (splitext p) = dot :: e /\ ~ In dot e /\ ~ In slash e).
Proof.
  unfold splitext. cbv zeta.
  assert (Hs : rfind slash p = -1 /\ ~ In slash p \/
               exists j, rfind slash p = Z.of_nat j /\ ~ In slash (drop (S j) p))
    by (destruct (rfind_spec slash p) as [H|(j & H1 & _ & H3)]; [left; exact H|right; eauto]).
  destruct (rfind slash p <? rfind dot p) eqn:Elt;
    [|split; [apply app_nil_r|left; reflexivity]].
  destruct (existsb _ _); [|split; [apply app_nil_r|left; reflexivity]].
  apply Z.ltb_lt in Elt. simpl.
  split; [apply take_drop|right].
  destruct (rfind_spec dot p) as [[Hd _]|(i & Hd & Hi & Hn)].
  - exfalso. destruct Hs as [[Hs _]|(j & Hs & _)]; lia.
  - rewrite Hd, Nat2Z.id in *. rewrite (drop_S _ _ _ Hi).
    exists (drop (S i) p). split; [reflexivity|]. split; [exact Hn|].
    intros Hin. destruct Hs as [[_ Hs]|(j & Hj & Hs)].
    + apply Hs. apply (in_drop_in _ _ _ Hin).
    + rewrite Hj in Elt. apply Hs.
      replace (S i) with (S j + (i - j))%nat in Hin by lia.
      rewrite <- drop_drop in Hin. apply (in_drop_in _ _ _ Hin).
Qed.

Lemma existsb_dot_false (s : pystr) :
  ~ In dot s -> existsb (fun c => if ascii_dec c dot then true else false) s = false.
Proof.
  induction s as [|c r IH]; intros Hn; simpl; [reflexivity|].
  destruct (ascii_dec c dot) as [->|_]; [exfalso; apply Hn; left; reflexivity|].
  apply IH. intros H. apply Hn. right. exact H.
Qed.

Lemma validate_after_last_dot (p e : pystr) (allowed : list pystr) :
  ~ In dot e ->
  validate_file_extension (p ++ dot :: e) allowed = bool_decide (py_lower e ∈ allowed).
Proof.
  intros Hn. unfold validate_file_extension.
  rewrite existsb_app. simpl. destruct (ascii_dec dot dot) as [_|]; [|congruence].
  rewrite orb_true_r. simpl. rewrite rfind_last by exact Hn.
  replace (Z.of_nat (length p) + 1) with (Z.of_nat (length (p ++ [dot])))
    by (rewrite length_app; simpl; lia).
  rewrite Nat2Z.id.
  replace (p ++ dot :: e) with ((p ++ [dot]) ++ e) by (rewrite <- app_assoc; reflexivity).
  rewrite drop_app_length. reflexivity.
Qed.

(** X8: [validate_file_extension] rejects a name without a dot and
    otherwise decides on the lower-cased text after the last dot alone,
    whatever comes before it. *)
Theorem validate_file_extension_spec (p e : pystr) (allowed : list pystr) :
  ~ In dot e ->
  validate_file_extension (p ++ dot :: e) allowed = bool_decide (py_lower e ∈ allowed) /\
  (~ In dot p -> validate_file_extension (p ++ e) allowed = false).
Proof.
  intros Hn. split; [apply validate_after_last_dot, Hn|].
  intros Hp. unfold validate_file_extension. rewrite existsb_dot_false; [reflexivity|].
  intros H. apply in_app_or in H as [H|H]; contradiction.
Qed.

Lemma validate_file_extension_spec_witness :
  ~ In dot (S_ "PDF") /\
  validate_file_extension (S_ "report" ++ dot :: S_ "PDF") Config_ALLOWED_EXTENSIONS = true.
Proof.
  assert (Hn : ~ In dot (S_ "PDF")) by (simpl; intros [H|[H|[H|[]]]]; discriminate).
  split; [exact Hn|].
  rewrite (proj1 (validate_file_extension_spec (S_ "report") (S_ "PDF")
                    Config_ALLOWED_EXTENSIONS Hn)).
  vm_compute. reflexivity.
Defined.

(** A file system where every path exists, text files and PDFs read
    back and DOCX files are corrupt. *)
Definition sample_fs : FileSystem :=
  {| path_exists := fun _ => true;
     read_file := fun _ => inr (S_ "  hello  ");
     pdf_pages := fun _ => inr [S_ "page one"; S_ "page two"];
     docx_paragraphs := fun _ => inl (S_ "File is not a zip file") |}.

(** X9: a file whose name is a dot followed by an allowed extension
    (say [.pdf]) passes [validate_file_extension], yet [os.path.splitext]
    sees no extension in its path, so [process_document] raises
    [ValueError("Unsupported file format: ")] on it. *)
Theorem dotfile_validated_but_unsupported (fs : FileSystem) (d e : pystr)
    (allowed : list pystr) :
  ~ In dot e -> ~ In slash e -> path_exists fs (d ++ slash :: dot :: e) = true ->
  validate_file_extension (dot :: e) allowed = bool_decide (py_lower e ∈ allowed) /\
  snd (splitext (d ++ slash :: dot :: e)) = [] /\
  process_document fs (d ++ slash :: dot :: e) =
    inl (Raised (ValueError (S_ "Unsupported file format: "))).
Proof.
  intros Hd Hs He.
  assert (Hsp : snd (splitext (d ++ slash :: dot :: e)) = []).
  { unfold splitext. cbv zeta.
    rewrite rfind_last by (intros [H|H]; [exact (dot_not_slash H)|exact (Hs H)]).
    replace (d ++ slash :: dot :: e) with ((d ++ [slash]) ++ dot :: e)
      by (rewrite <- app_assoc; reflexivity).
    rewrite rfind_last by exact Hd. rewrite length_app. simpl.
    destruct (Z.of_nat (length d) <? Z.of_nat (length d + 1)); [|reflexivity].
    replace (Z.to_nat (Z.of_nat (length d) + 1)) with (length d + 1)%nat by lia.
    rewrite Nat2Z.id. unfold slice. rewrite Nat.sub_diag. simpl. reflexivity. }
  split; [apply (validate_after_last_dot [] e allowed Hd)|].
  split; [exact Hsp|].
  unfold process_document. rewrite He, Hsp. reflexivity.
Qed.

Lemma dotfile_validated_but_unsupported_witness :
  ~ In dot (S_ "pdf") /\ ~ In slash (S_ "pdf") /\
  path_exists sample_fs (S_ "uploads" ++ slash :: dot :: S_ "pdf") = true /\
  validate_file_extension (dot :: S_ "pdf") Config_ALLOWED_EXTENSIONS = true /\
  process_document sample_fs (S_ "uploads" ++ slash :: dot :: S_ "pdf") =
    inl (Raised (ValueError (S_ "Unsupported file format: "))).
Proof.
  assert (Hd : ~ In dot (S_ "pdf")) by (simpl; intros [H|[H|[H|[]]]]; discriminate).
  assert (Hs : ~ In slash (S_ "pdf")) by (simpl; intros [H|[H|[H|[]]]]; discriminate).
  assert (He : path_exists sample_fs (S_ "uploads" ++ slash :: dot :: S_ "pdf") = true)
    by reflexivity.
  destruct (dotfile_validated_but_unsupported sample_fs (S_ "uploads") (S_ "pdf")
              Config_ALLOWED_EXTENSIONS Hd Hs He) as (H1 & _ & H3).
  split; [exact Hd|]. split; [exact Hs|]. split; [exact He|].
  split; [rewrite H1; vm_compute; reflexivity|exact H3].
Defined.

Lemma extractor_shape (r : doc_exn + pystr) (fs : FileSystem) (p : pystr) :
  r = extract_text_from_pdf fs p \/ r = extract_text_from_docx fs p \/
  r = extract_text_from_txt fs p ->
  (exists m, r = inl (Exception m)) \/ (exists x, r = inr (py_strip x)).
Proof.
  unfold extract_text_from_pdf, extract_text_from_docx, extract_text_from_txt.
  intros [ -> | [ -> | -> ] ];
    [destruct (pdf_pages fs p)|destruct (docx_paragraphs fs p)|destruct (read_file fs p)];
    eauto.
Qed.

(** X10: [process_document] raises [FileNotFoundError] on a missing path
    before looking at the extension; otherwise it raises only the
    [ValueError] for an unsupported extension or an extractor's
    [Exception]; and the text it returns never has leading or trailing
    whitespace. *)
Theorem process_document_outcomes (fs : FileSystem) (p : pystr) :
  (path_exists fs p = false ->
     process_document fs p = inl (FileNotFoundError (S_ "File not found: " ++ p))) /\
  (forall t, process_document fs p = inr t -> py_strip t = t) /\
  (forall e, process_document fs p = inl e ->
     (path_exists fs p = false /\ e = FileNotFoundError (S_ "File not found: " ++ p)) \/
     (exists ext, e = Raised (ValueError (S_ "Unsupported file format: " ++ ext))) \/
     (exists m, e = Exception m)).
Proof.
  assert (Hsh : path_exists fs p = true ->
            (exists ext, process_document fs p =
                         inl (Raised (ValueError (S_ "Unsupported file format: " ++ ext)))) \/
            (exists m, process_document fs p = inl (Exception m)) \/
            (exists x, process_document fs p = inr (py_strip x))).
  { intros He. unfold process_document. rewrite He. cbv zeta. simpl negb. cbv iota.
    destruct (bool_decide _);
      [right; apply (extractor_shape _ fs p); auto|].
    destruct (bool_decide _);
      [right; apply (extractor_shape _ fs p); auto|].
    destruct (bool_decide _);
      [right; apply (extractor_shape _ fs p); auto|].
    left. eauto. }
  split; [|split].
  - intros He. unfold process_document. rewrite He. reflexivity.
  - intros t Ht. destruct (path_exists fs p) eqn:He.
    + destruct (Hsh eq_refl) as [(ext & H)|[(m & H)|(x & H)]]; rewrite H in Ht;
        try discriminate.
      injection Ht as <-. apply py_strip_twice.
    + unfold process_document in Ht. rewrite He in Ht. discriminate.
  - intros e Hp. destruct (path_exists fs p) eqn:He.
    + destruct (Hsh eq_refl) as [(ext & H)|[(m & H)|(x & H)]]; rewrite H in Hp;
        try discriminate; injection Hp as <-; right; eauto.
    + left. split; [reflexivity|]. unfold process_document in Hp. rewrite He in Hp.
      injection Hp as <-. reflexivity.
Qed.

(* ------------------------------------------------------------------ *)
(** ** Context formatting and answers *)
(* ------------------------------------------------------------------ *)

Lemma format_context_from_spec (i : nat) (chunks : list ResultDict)
    (parts : list ContextPart) :
  format_context_from i chunks = Some parts ->
  length parts = length chunks /\
  forall j c, chunks !! j = Some c ->
    exists p, parts !! j = Some p /\ cp_index p = (i + j)%nat /\ cp_text p = rd_text c /\
      py_add_one (dict_get (rd_meta c) "chunk_index" (PInt 0)) = Some (cp_section p) /\
      cp_source p = dict_get (rd_meta c) "filename" (PStr (S_ "Unknown")).
Proof.
  revert i parts. induction chunks as [|c r IH]; intros i parts H; simpl in H.
  - injection H as <-. split; [reflexivity|]. intros j c Hj. rewrite lookup_nil in Hj.
    discriminate.
  - destruct (py_add_one _) as [sec|] eqn:Es; [|discriminate].
    destruct (format_context_from (S i) r) as [ps|] eqn:Er; [|discriminate].
    injection H as <-. destruct (IH (S i) ps Er) as [Hl Hj].
    split; [simpl; congruence|].
    intros [|j] c' Hc; simpl in Hc.
    + injection Hc as <-. eexists. split; [reflexivity|]. simpl.
      split; [lia|]. split; [reflexivity|]. split; [exact Es|reflexivity].
    + destruct (Hj j c' Hc) as (p & Hp & H1 & H2 & H3 & H4).
      exists p. split; [exact Hp|]. split; [lia|]. auto.
Qed.

(** X11: when [_format_context] succeeds it makes one block per chunk,
    in order: block [j] is numbered [j + 1], carries the chunk's text,
    its [filename] (or ['Unknown']) and its [chunk_index + 1]. *)
Theorem format_context_blocks (chunks : list ResultDict) (parts : list ContextPart) :
  format_context chunks = Some parts ->
  length parts = length chunks /\
  forall j c, chunks !! j = Some c ->
    exists p, parts !! j = Some p /\ cp_index p = S j /\ cp_text p = rd_text c /\
      py_add_one (dict_get (rd_meta c) "chunk_index" (PInt 0)) = Some (cp_section p) /\
      cp_source p = dict_get (rd_meta c) "filename" (PStr (S_ "Unknown")).
Proof.
  intros H. destruct (format_context_from_spec 1 chunks parts H) as [Hl Hj].
  split; [exact Hl|]. intros j c Hc. destruct (Hj j c Hc) as (p & Hp & H1 & Hr).
  exists p. split; [exact Hp|]. split; [simpl in H1; exact H1|exact Hr].
Qed.

Lemma format_context_blocks_witness :
  format_context sample_results = Some sample_context /\
  length sample_context = length sample_results.
Proof.
  assert (H : format_context sample_results = Some sample_context) by (vm_compute; reflexivity).
  split; [exact H|]. exact (proj1 (format_context_blocks sample_results sample_context H)).
Defined.

(** X12: [_format_context] raises (the [TypeError] of [+ 1]) exactly
    when some chunk's [chunk_index] is not a number: a string, [None]. *)
Theorem format_context_fails_iff (chunks : list ResultDict) :
  format_context chunks = None <->
  exists c, In c chunks /\ py_add_one (dict_get (rd_meta c) "chunk_index" (PInt 0)) = None.
Proof.
  unfold format_context. generalize 1%nat.
  induction chunks as [|c r IH]; intros i; simpl.
  - split; [discriminate|]. intros (c & [] & _).
  - destruct (py_add_one (dict_get (rd_meta c) "chunk_index" (PInt 0))) as [sec|] eqn:Es.
    + destruct (format_context_from (S i) r) as [ps|] eqn:Er.
      * split; [discriminate|]. intros (c' & [<-|Hin] & Hc'); [congruence|].
        assert (Hn : format_context_from (S i) r = None) by (apply (IH (S i)); eauto).
        congruence.
      * split; [|reflexivity]. intros _. destruct (proj1 (IH (S i)) Er) as (c' & Hin & Hc').
        exists c'. split; [right; exact Hin|exact Hc'].
    + split; [|reflexivity]. intros _. exists c. split; [left; reflexivity|exact Es].
Qed.

(** X13: [generate_answer] invokes the language model at most once: not
    at all when there is no chunk or the context cannot be formatted,
    otherwise once, with the system prompt built from the formatted
    context and [Question: <query>]. *)
Theorem generate_answer_llm_calls (llm : list message -> llm_outcome) (query : pystr)
    (chunks : list ResultDict) :
  (length (fst (generate_answer llm query chunks)) <= 1)%nat /\
  (fst (generate_answer llm query chunks) <> [] <->
     chunks <> [] /\ format_context chunks <> None) /\
  (forall ctx, chunks <> [] -> format_context chunks = Some ctx ->
     fst (generate_answer llm query chunks) =
       [[SystemMessage ctx; HumanMessage (S_ "Question: " ++ query)]]).
Proof.
  unfold generate_answer. destruct chunks as [|c r].
  - simpl. split; [lia|]. split; [split; [congruence|intros [H _]; congruence]|].
    intros ctx H. congruence.
  - destruct (format_context (c :: r)) as [ctx|] eqn:Ef; simpl.
    + split; [lia|]. split; [split; [intros _; split; discriminate|intros _; discriminate]|].
      intros ctx' _ H. injection H as <-. reflexivity.
    + split; [lia|]. split; [split; [congruence|intros [_ H]; congruence]|].
      intros ctx' _ H. discriminate.
Qed.

(** X14: a response of [generate_answer] either lists no source or lists
    [_format_sources] of all the chunks, one per chunk; its confidence is
    0.0 or between 0.3 and 0.9. *)
Theorem generate_answer_response (llm : list message -> llm_outcome) (query : pystr)
    (chunks : list ResultDict) (r : Response) :
  snd (generate_answer llm query chunks) = inr r ->
  (sources r = [] \/ sources r = format_sources chunks) /\
  (length (sources r) <= length chunks)%nat /\
  (confidence r = 0%Q \/ (3 # 10 <= confidence r <= 9 # 10)%Q).
Proof.
  unfold generate_answer. destruct chunks as [|c cs].
  - simpl. intros H. injection H as <-. simpl. split; [left; reflexivity|].
    split; [lia|left; reflexivity].
  - destruct (format_context (c :: cs)) as [ctx|]; simpl; [|discriminate].
    destruct (llm (build_messages query ctx)) as [a|e]; intros H; injection H as <-; simpl.
    + split; [right; reflexivity|]. split; [unfold format_sources; rewrite length_map; lia|].
      right. destruct (confidence_cases (avg_similarity (c :: cs)))
        as [(_ & E)|[(_ & _ & E)|[(_ & _ & E)|(_ & E)]]]; rewrite E; split; lra.
    + split; [left; reflexivity|]. split; [lia|left; reflexivity].
Qed.

Lemma generate_answer_response_witness :
  snd (generate_answer answering_llm (S_ "What jumps?") sample_results) =
    inr {| answer := S_ "The fox jumps."; sources := format_sources sample_results;
           confidence := 9 # 10 |} /\
  (length (format_sources sample_results) <= length sample_results)%nat.
Proof.
  assert (H : snd (generate_answer answering_llm (S_ "What jumps?") sample_results) =
    inr {| answer := S_ "The fox jumps."; sources := format_sources sample_results;
           confidence := 9 # 10 |}) by (vm_compute; reflexivity).
  split; [exact H|].
  exact (proj1 (proj2 (generate_answer_response answering_llm (S_ "What jumps?")
                         sample_results _ H))).
Defined.




(* ------------------------------------------------------------------ *)
(** ** Saving, adding and failing *)
(* ------------------------------------------------------------------ *)

Definition one_record_world : World :=
  {| mgr := {| vector_store := Some one_record_store; store_path := Config_VECTOR_STORE_PATH |};
     disk := ∅; stdout := [] |}.

(** X16: after a successful [save_vector_store(filename)] the returned
    path is [os.path.join(store_path, filename)] and holds the current
    store, the manager is unchanged, and loading the same file name back
    succeeds and leaves the world exactly as it was. *)
Theorem save_load_roundtrip (f : pystr) (w w1 : World) (path : pystr) :
  save_vector_store f w = (inr path, w1) ->
  path = path_join (store_path (mgr w)) f /\ mgr w1 = mgr w /\
  (exists st, vector_store (mgr w) = Some st /\ disk w1 !! path = Some (Snapshot st)) /\
  load_vector_store f w1 = (inr true, w1).
Proof.
  unfold save_vector_store. run_m.
  destruct (vector_store (mgr w)) as [st|] eqn:Hv; run_m; [|discriminate].
  intros H. injection H as <- <-. simpl.
  split; [reflexivity|]. split; [reflexivity|].
  split; [exists st; split; [reflexivity|apply lookup_insert_eq]|].
  unfold load_vector_store. run_m. rewrite lookup_insert_eq. run_m.
  destruct w as [[vs sp] d o]. simpl in *. subst vs. reflexivity.
Qed.

Lemma save_load_roundtrip_witness :
  save_vector_store faiss_index_default one_record_world =
    (inr (S_ "vector_store/faiss_index"),
     snd (save_vector_store faiss_index_default one_record_world)) /\
  load_vector_store faiss_index_default
    (snd (save_vector_store faiss_index_default one_record_world)) =
    (inr true, snd (save_vector_store faiss_index_default one_record_world)).
Proof.
  assert (H : save_vector_store faiss_index_default one_record_world =
    (inr (S_ "vector_store/faiss_index"),
     snd (save_vector_store faiss_index_default one_record_world)))
    by (vm_compute; reflexivity).
  split; [exact H|].
  destruct (save_load_roundtrip faiss_index_default one_record_world _ _ H)
    as (_ & _ & _ & Hl).
  exact Hl.
Defined.

(** X17: [create_vector_store([])] raises [ValueError] and changes
    nothing; and a [create_vector_store] or [add_documents_to_store]
    that raises leaves the world as it was (the store is only replaced
    once the embeddings succeeded). *)
Theorem store_failures_atomic (embed : pystr -> option (list Q)) (chunks : list Chunk)
    (w : World) (e : exn) :
  create_vector_store embed [] w =
    (inl (ValueError (S_ "No chunks provided to create vector store")), w) /\
  (fst (create_vector_store embed chunks w) = inl e ->
     snd (create_vector_store embed chunks w) = w) /\
  (fst (add_documents_to_store embed chunks w) = inl e ->
     snd (add_documents_to_store embed chunks w) = w).
Proof.
  assert (Hc : forall cs, fst (create_vector_store embed cs w) = inl e ->
                          snd (create_vector_store embed cs w) = w).
  { intros cs. unfold create_vector_store, faiss_from_documents.
    destruct cs as [|c0 cs]; run_m; [reflexivity|].
    destruct (embed_documents embed _); run_m; [|reflexivity].
    destruct (forallb _ _); run_m; [discriminate|reflexivity]. }
  split; [reflexivity|]. split; [apply Hc|].
  unfold add_documents_to_store. destruct chunks as [|c0 cs]; [run_m; discriminate|].
  cbv beta iota delta [bind get_mgr].
  destruct (vector_store (mgr w)) as [st|]; [|apply Hc].
  unfold faiss_add_documents.
  destruct (embed_documents embed _); run_m; [|reflexivity].
  destruct (forallb _ _); run_m; [discriminate|reflexivity].
Qed.

Lemma add_documents_effect (embed : pystr -> option (list Q)) (chunks : list Chunk)
    (w w' : World) (n : nat) :
  add_documents_to_store embed chunks w = (inr n, w') ->
  n = length chunks /\ disk w' = disk w /\ stdout w' = stdout w /\
  store_path (mgr w') = store_path (mgr w) /\
  ((chunks = [] /\ w' = w) \/
   exists vs st', embed_documents embed (map c_text chunks) = Some vs /\
     vector_store (mgr w') = Some st' /\
     fs_records st' = match vector_store (mgr w) with
                      | Some st => fs_records st | None => [] end ++ to_records chunks vs /\
     (forall st, vector_store (mgr w) = Some st -> fs_dim st' = fs_dim st)).
Proof.
  unfold add_documents_to_store, create_vector_store, faiss_from_documents,
    faiss_add_documents.
  destruct chunks as [|c0 cs]; run_m.
  { intros H. injection H as <- <-. split; [reflexivity|]. split; [reflexivity|].
    split; [reflexivity|]. split; [reflexivity|]. left. split; reflexivity. }
  destruct (vector_store (mgr w)) as [st|] eqn:Hv;
    (destruct (embed_documents embed _) as [vs|] eqn:E; run_m; [|discriminate]);
    (destruct (forallb _ _); run_m; [|discriminate]);
    intros H; injection H as <- <-; simpl.
  - split; [reflexivity|]. split; [reflexivity|]. split; [reflexivity|].
    split; [reflexivity|]. right. exists vs; eexists. split; [first [exact E|reflexivity]|].
    split; [reflexivity|]. split; [reflexivity|]. intros st0 H. injection H as <-.
    reflexivity.
  - split; [reflexivity|]. split; [reflexivity|]. split; [reflexivity|].
    split; [reflexivity|]. right. exists vs; eexists. split; [first [exact E|reflexivity]|].
    split; [reflexivity|]. split; [reflexivity|]. intros st0 H. discriminate.
Qed.

Lemma add_documents_size (embed : pystr -> option (list Q)) (chunks : list Chunk)
    (w w' : World) (n : nat) :
  add_documents_to_store embed chunks w = (inr n, w') ->
  get_store_size w' = (get_store_size w + n)%nat.
Proof.
  intros H. destruct (add_documents_effect embed chunks w w' n H)
    as (-> & _ & _ & _ & [[-> ->]|(vs & st' & E & Hv' & Hr & _)]).
  - simpl. lia.
  - unfold get_store_size. rewrite Hv', Hr, length_app, (to_records_length embed _ _ E).
    destruct (vector_store (mgr w)); reflexivity.
Qed.

(** X18: a successful [add_documents_to_store] of N chunks returns N,
    grows the store by exactly N records appended after the old ones (of
    the same dimension), and touches neither the disk nor the path. *)
Theorem add_documents_grows (embed : pystr -> option (list Q)) (chunks : list Chunk)
    (w w' : World) (n : nat) :
  add_documents_to_store embed chunks w = (inr n, w') ->
  n = length chunks /\ get_store_size w' = (get_store_size w + n)%nat /\
  disk w' = disk w /\ store_path (mgr w') = store_path (mgr w) /\
  (forall st, vector_store (mgr w) = Some st ->
     exists st' new, vector_store (mgr w') = Some st' /\ fs_dim st' = fs_dim st /\
       fs_records st' = fs_records st ++ new).
Proof.
  intros H. pose proof (add_documents_size embed chunks w w' n H) as Hs.
  destruct (add_documents_effect embed chunks w w' n H)
    as (Hn & Hd & _ & Hp & Hcase).
  split; [exact Hn|]. split; [exact Hs|]. split; [exact Hd|]. split; [exact Hp|].
  intros st Hv. destruct Hcase as [[_ ->]|(vs & st' & _ & Hv' & Hr & Hdim)].
  - exists st, []. split; [exact Hv|]. split; [reflexivity|]. rewrite app_nil_r.
    reflexivity.
  - exists st', (to_records chunks vs). split; [exact Hv'|].
    split; [apply Hdim, Hv|]. rewrite Hr, Hv. reflexivity.
Qed.

Lemma add_documents_grows_witness :
  add_documents_to_store const_embed sample_add one_record_world =
    (inr 1%nat, snd (add_documents_to_store const_embed sample_add one_record_world)) /\
  get_store_size (snd (add_documents_to_store const_embed sample_add one_record_world))
    = 2%nat.
Proof.
  assert (H : add_documents_to_store const_embed sample_add one_record_world =
    (inr 1%nat, snd (add_documents_to_store const_embed sample_add one_record_world)))
    by (vm_compute; reflexivity).
  split; [exact H|].
  destruct (add_documents_grows const_embed sample_add one_record_world _ _ H)
    as (_ & Hs & _). rewrite Hs. reflexivity.
Defined.

(* ------------------------------------------------------------------ *)
(** ** Search *)
(* ------------------------------------------------------------------ *)

Lemma insert_by_dist_length (x : Q * VectorRecord) (l : list (Q * VectorRecord)) :
  length (insert_by_dist x l) = S (length l).
Proof.
  induction l as [|y r IH]; simpl; [reflexivity|].
  destruct (Qle_bool (fst y) (fst x)); simpl; congruence.
Qed.

Lemma insert_by_dist_in (x y : Q * VectorRecord) (l : list (Q * VectorRecord)) :
  In y (insert_by_dist x l) -> y = x \/ In y l.
Proof.
  induction l as [|z r IH]; simpl.
  - intros [H|[]]. left. congruence.
  - destruct (Qle_bool (fst z) (fst x)); simpl.
    + intros [H|H]; [right; left; exact H|]. destruct (IH H); tauto.
    + intros [H|H]; [left; congruence|right; exact H].
Qed.

Lemma rank_length (l : list (Q * VectorRecord)) : length (rank l) = length l.
Proof.
  unfold rank. transitivity (length (rev l)); [|apply length_rev]. generalize (rev l) as m.
  induction m as [|x m IH]; simpl; [reflexivity|].
  rewrite insert_by_dist_length, IH. reflexivity.
Qed.

Lemma rank_in (y : Q * VectorRecord) (l : list (Q * VectorRecord)) :
  In y (rank l) -> In y l.
Proof.
  unfold rank. intros H. apply in_rev. revert H. generalize (rev l) as m.
  induction m as [|x m IH]; simpl; [tauto|].
  intros H. destruct (insert_by_dist_in _ _ _ H); [left; congruence|right; auto].
Qed.

Definition by_dist (a b : Q * VectorRecord) : Prop := (fst a <= fst b)%Q.

Lemma insert_by_dist_sorted (x : Q * VectorRecord) (l : list (Q * VectorRecord)) :
  Sorted by_dist l -> Sorted by_dist (insert_by_dist x l).
Proof.
  induction l as [|y r IH]; intros Hs; simpl; [repeat constructor|].
  destruct (Qle_bool (fst y) (fst x)) eqn:E.
  - apply Qle_bool_iff in E. inversion Hs as [|? ? Hr Hh]; subst.
    constructor; [apply IH, Hr|].
    destruct r as [|z r']; simpl; [constructor; exact E|].
    destruct (Qle_bool (fst z) (fst x)); constructor; [|exact E].
    inversion Hh; assumption.
  - constructor; [exact Hs|]. constructor. unfold by_dist.
    apply Qlt_le_weak, Qnot_le_lt. intros Hle. apply Qle_bool_iff in Hle. congruence.
Qed.

Lemma rank_sorted (l : list (Q * VectorRecord)) : Sorted by_dist (rank l).
Proof.
  unfold rank. generalize (rev l) as m.
  induction m as [|x m IH]; simpl; [constructor|]. apply insert_by_dist_sorted, IH.
Qed.

Lemma sorted_take {A} (R : A -> A -> Prop) (n : nat) (l : list A) :
  Sorted R l -> Sorted R (take n l).
Proof.
  revert n. induction l as [|x r IH]; intros n Hs.
  - rewrite take_nil. constructor.
  - destruct n as [|n]; [simpl; constructor|]. simpl.
    inversion Hs as [|? ? Hr Hh]; subst. constructor; [apply IH, Hr|].
    destruct r as [|y r'], n as [|n]; simpl; constructor. inversion Hh; assumption.
Qed.

Lemma sorted_fst (l : list (Q * VectorRecord)) :
  Sorted by_dist l -> Sorted Qle (map fst l).
Proof.
  induction l as [|x r IH]; intros Hs; simpl; [constructor|].
  inversion Hs as [|? ? Hr Hh]; subst. constructor; [apply IH, Hr|].
  destruct r; simpl; constructor. inversion Hh; assumption.
Qed.

Lemma in_take_in {A} (x : A) (n : nat) (l : list A) : In x (take n l) -> In x l.
Proof. intros H. rewrite <- (take_drop n l). apply in_or_app. left. exact H. Qed.

Lemma square_nonneg (d : Q) : (0 <= d * d)%Q.
Proof.
  destruct (Qlt_le_dec d 0) as [Hd|Hd].
  - assert (E : (d * d == (- d) * (- d))%Q) by ring. rewrite E.
    apply Qmult_le_0_compat; lra.
  - apply Qmult_le_0_compat; exact Hd.
Qed.

Lemma l2sq_nonneg (u v : list Q) : (0 <= l2sq u v)%Q.
Proof.
  revert v. induction u as [|x u IH]; intros [|y v]; simpl; try lra.
  pose proof (square_nonneg (x - y)). pose proof (IH v). lra.
Qed.

(** The hits of an exact search for [qv]: the [k] nearest records with
    their distances, nearest first. *)
Definition search_hits (qv : list Q) (st : FaissStore) (k : Z) : list (Q * VectorRecord) :=
  take (Z.to_nat k) (rank (map (fun r => (l2sq qv (vr_embedding r), r)) (fs_records st))).

Definition result_of_hit (p : Q * VectorRecord) : ResultDict :=
  {| rd_text := vr_text (snd p); rd_metadata := Some (vr_metadata (snd p));
     rd_score := Some (fst p) |}.

Lemma search_success (embed : pystr -> option (list Q)) (q : pystr) (k : option Z)
    (w w' : World) (rs : list ResultDict) :
  search_similar_documents embed q k w = (inr rs, w') ->
  w' = w /\
  ((vector_store (mgr w) = None /\ rs = []) \/
   exists st qv, vector_store (mgr w) = Some st /\ embed q = Some qv /\
     rs = map result_of_hit (search_hits qv st (int_or k Config_TOP_K_RESULTS))).
Proof.
  unfold search_similar_documents, faiss_search. run_m.
  destruct (vector_store (mgr w)) as [st|] eqn:Hv; run_m.
  - destruct (embed q) as [qv|] eqn:Eq; run_m; [|discriminate].
    destruct (negb _); run_m; [discriminate|].
    destruct (_ <=? 0); run_m; [discriminate|].
    intros H. injection H as <- <-. split; [reflexivity|]. right.
    exists st, qv. split; [reflexivity|]. split; [reflexivity|].
    unfold search_hits. rewrite map_map. reflexivity.
  - intros H. injection H as <- <-. split; [reflexivity|]. left. split; reflexivity.
Qed.

Lemma search_hits_length (qv : list Q) (st : FaissStore) (k : Z) :
  length (search_hits qv st k) = Nat.min (Z.to_nat k) (length (fs_records st)).
Proof.
  unfold search_hits. rewrite length_take, rank_length, length_map. reflexivity.
Qed.

Lemma search_count (embed : pystr -> option (list Q)) (q : pystr) (k : option Z)
    (w w' : World) (rs : list ResultDict) :
  search_similar_documents embed q k w = (inr rs, w') ->
  (length rs <= get_store_size w)%nat /\
  (length rs <= Z.to_nat (int_or k Config_TOP_K_RESULTS))%nat.
Proof.
  intros H. destruct (search_success embed q k w w' rs H)
    as [_ [[_ ->]|(st & qv & Hv & _ & ->)]]; [simpl; lia|].
  unfold get_store_size. rewrite Hv, length_map, search_hits_length. lia.
Qed.

(** X19: a search changes nothing; it returns no more results than
    the store holds and no more than [top_k] (3 when [top_k] is [None]
    or 0); each result is the text and metadata of a stored record, with
    a non-negative distance as its score. *)
Theorem search_results_from_store (embed : pystr -> option (list Q)) (q : pystr)
    (k : option Z) (w w' : World) (rs : list ResultDict) :
  search_similar_documents embed q k w = (inr rs, w') ->
  w' = w /\ (length rs <= get_store_size w)%nat /\
  (length rs <= Z.to_nat (int_or k Config_TOP_K_RESULTS))%nat /\
  forall r, In r rs ->
    exists st vr d, vector_store (mgr w) = Some st /\ In vr (fs_records st) /\
      rd_text r = vr_text vr /\ rd_metadata r = Some (vr_metadata vr) /\
      rd_score r = Some d /\ (0 <= d)%Q.
Proof.
  intros H. destruct (search_count embed q k w w' rs H) as [Hc1 Hc2].
  destruct (search_success embed q k w w' rs H) as [-> Hcase].
  split; [reflexivity|]. split; [exact Hc1|]. split; [exact Hc2|].
  intros r Hr. destruct Hcase as [[_ ->]|(st & qv & Hv & _ & ->)]; [destruct Hr|].
  apply in_map_iff in Hr as (p & <- & Hp). unfold search_hits in Hp.
  apply in_take_in, rank_in, in_map_iff in Hp as (vr & <- & Hvr).
  exists st, vr, (l2sq qv (vr_embedding vr)). split; [exact Hv|]. split; [exact Hvr|].
  simpl. split; [reflexivity|]. split; [reflexivity|]. split; [reflexivity|].
  apply l2sq_nonneg.
Qed.

Definition sample_search : (exn + list ResultDict) * World :=
  search_similar_documents const_embed (S_ "hello") (Some 3) one_record_world.

Definition sample_search_results : list ResultDict :=
  match fst sample_search with inr rs => rs | inl _ => [] end.

Lemma sample_search_ok :
  sample_search = (inr sample_search_results, one_record_world).
Proof. vm_compute. reflexivity. Qed.

Lemma search_results_from_store_witness :
  search_similar_documents const_embed (S_ "hello") (Some 3) one_record_world =
    (inr sample_search_results, one_record_world) /\
  (length sample_search_results <= get_store_size one_record_world)%nat.
Proof.
  split; [exact sample_search_ok|].
  exact (proj1 (proj2 (search_results_from_store const_embed (S_ "hello") (Some 3)
                         one_record_world one_record_world _ sample_search_ok))).
Defined.

(** X20: search results come nearest first: their scores are all
    present and non-decreasing. *)
Theorem search_results_sorted (embed : pystr -> option (list Q)) (q : pystr)
    (k : option Z) (w w' : World) (rs : list ResultDict) :
  search_similar_documents embed q k w = (inr rs, w') ->
  exists ds, map rd_score rs = map Some ds /\ Sorted Qle ds.
Proof.
  intros H. destruct (search_success embed q k w w' rs H)
    as [_ [[_ ->]|(st & qv & _ & _ & ->)]]; [exists []; split; constructor|].
  exists (map fst (search_hits qv st (int_or k Config_TOP_K_RESULTS))).
  split; [rewrite !map_map; reflexivity|].
  apply sorted_fst. unfold search_hits. apply sorted_take, rank_sorted.
Qed.

(** A store of three records added farthest first from the query
    vector [[1; 0]] of [const_embed]: squared distances 4, 2 and 0. *)
Definition mk_record (t : string) (v : list Q) : VectorRecord :=
  {| vr_text := S_ t; vr_metadata := ∅; vr_embedding := v |}.

Definition three_record_world : World :=
  {| mgr := {| vector_store :=
                 Some {| fs_dim := 2;
                         fs_records := [mk_record "far" [3%Q; 0%Q];
                                        mk_record "mid" [0%Q; 1%Q];
                                        mk_record "near" [1%Q; 0%Q]] |};
               store_path := Config_VECTOR_STORE_PATH |};
     disk := ∅; stdout := [] |}.

Definition three_search_results : list ResultDict :=
  match fst (search_similar_documents const_embed (S_ "hello") None three_record_world) with
  | inr rs => rs | inl _ => [] end.

Lemma search_results_sorted_witness :
  search_similar_documents const_embed (S_ "hello") None three_record_world =
    (inr three_search_results, three_record_world) /\
  map rd_text three_search_results = [S_ "near"; S_ "mid"; S_ "far"] /\
  map rd_score three_search_results = [Some 0%Q; Some 2%Q; Some 4%Q] /\
  exists ds, map rd_score three_search_results = map Some ds /\ Sorted Qle ds.
Proof.
  assert (H : search_similar_documents const_embed (S_ "hello") None three_record_world =
                (inr three_search_results, three_record_world))
    by (vm_compute; reflexivity).
  split; [exact H|]. split; [vm_compute; reflexivity|].
  split; [vm_compute; reflexivity|].
  exact (search_results_sorted const_embed (S_ "hello") None
           three_record_world three_record_world _ H).
Defined.

(** X21: on an initialised store, a negative [top_k] is passed through
    to FAISS and the search raises (the endpoint answers 500), while
    [top_k = 0] is the default 3. *)
Theorem search_top_k_edges (embed : pystr -> option (list Q)) (q : pystr) (w : World)
    (st : FaissStore) (qv : list Q) (k : Z) :
  vector_store (mgr w) = Some st -> embed q = Some qv -> length qv = fs_dim st -> k < 0 ->
  search_similar_documents embed q (Some k) w = (inl FaissError, w) /\
  search_similar_documents embed q (Some 0) w = search_similar_documents embed q None w.
Proof.
  intros Hv Hq Hd Hk. split; [|reflexivity].
  unfold search_similar_documents, faiss_search. run_m. rewrite Hv. run_m.
  rewrite Hq. run_m. rewrite Hd, Nat.eqb_refl. simpl.
  destruct k as [|p|p]; [lia|lia|reflexivity].
Qed.

Lemma search_top_k_edges_witness :
  search_similar_documents const_embed (S_ "hello") (Some (-1)) one_record_world =
    (inl FaissError, one_record_world).
Proof.
  assert (H1 : vector_store (mgr one_record_world) = Some one_record_store) by reflexivity.
  assert (H2 : const_embed (S_ "hello") = Some [1%Q; 0%Q]) by reflexivity.
  assert (H3 : length [1%Q; 0%Q] = fs_dim one_record_store) by reflexivity.
  assert (H4 : -1 < 0) by lia.
  exact (proj1 (search_top_k_edges const_embed (S_ "hello") one_record_world
                  one_record_store [1%Q; 0%Q] (-1) H1 H2 H3 H4)).
Defined.

(** X22: in every world the program can reach, the store size is 0
    exactly when the manager is uninitialised, and a load that returns
    [True] leaves a non-empty store. *)
Theorem reachable_store_size (embed : pystr -> option (list Q)) (w : World) :
  reachable embed w ->
  (get_store_size w = 0%nat <-> vector_store (mgr w) = None) /\
  (forall f w', load_vector_store f w = (inr true, w') -> (0 < get_store_size w')%nat).
Proof.
  intros Hr. destruct (reachable_inv embed w Hr) as [Hs Hd]. split.
  - unfold get_store_size. destruct (vector_store (mgr w)) as [st|] eqn:Hv;
      [|split; reflexivity].
    split; [|discriminate]. intros H. exfalso. apply (Hs st eq_refl).
    apply length_zero_iff_nil, H.
  - intros f w' H. unfold load_vector_store in H. run_m.
    destruct (disk w !! path_join (store_path (mgr w)) f) as [[st|]|] eqn:Hp; run_m;
      try discriminate.
    injection H as <-. unfold get_store_size. simpl.
    pose proof (Hd _ st Hp) as Hne. destruct (fs_records st); [congruence|simpl; lia].
Qed.

(** A restarted process over the snapshot an earlier one saved: add a
    chunk, save it, then start again with a fresh manager. *)
Definition saved_world : World :=
  snd (save_vector_store faiss_index_default
         (snd (add_documents_to_store const_embed sample_add start_world))).

Definition restarted_world : World :=
  {| mgr := fresh_manager; disk := disk saved_world; stdout := stdout saved_world |}.

Lemma reachable_store_size_witness :
  reachable const_embed restarted_world /\
  get_store_size restarted_world = 0%nat /\
  vector_store (mgr restarted_world) = None /\
  load_vector_store faiss_index_default restarted_world =
    (inr true, snd (load_vector_store faiss_index_default restarted_world)) /\
  (0 < get_store_size (snd (load_vector_store faiss_index_default restarted_world)))%nat.
Proof.
  assert (Hr : reachable const_embed restarted_world)
    by (apply R_restart, R_save, R_add, R_init).
  assert (Hz : get_store_size restarted_world = 0%nat) by (vm_compute; reflexivity).
  assert (Hl : load_vector_store faiss_index_default restarted_world =
                 (inr true, snd (load_vector_store faiss_index_default restarted_world)))
    by (vm_compute; reflexivity).
  destruct (reachable_store_size const_embed restarted_world Hr) as [Hiff Hload].
  split; [exact Hr|]. split; [exact Hz|]. split; [exact (proj1 Hiff Hz)|].
  split; [exact Hl|]. exact (Hload faiss_index_default _ Hl).
Defined.

(* ------------------------------------------------------------------ *)
(** ** The endpoints of app.py *)
(* ------------------------------------------------------------------ *)

Lemma save_effect (f : pystr) (w w1 : World) (path : pystr) :
  save_vector_store f w = (inr path, w1) ->
  path = path_join (store_path (mgr w)) f /\ mgr w1 = mgr w /\
  exists st, vector_store (mgr w) = Some st /\ disk w1 = <[path := Snapshot st]> (disk w).
Proof.
  unfold save_vector_store. run_m.
  destruct (vector_store (mgr w)) as [st|] eqn:Hv; run_m; [|discriminate].
  intros H. injection H as <- <-. simpl.
  split; [reflexivity|]. split; [reflexivity|]. exists st. split; reflexivity.
Qed.

Lemma to_records_meta (chunks : list Chunk) (vs : list (list Q)) (r : VectorRecord) :
  In r (to_records chunks vs) -> exists c, In c chunks /\ vr_metadata r = c_metadata c.
Proof.
  unfold to_records. revert vs.
  induction chunks as [|c cs IH]; intros [|v vs] H; simpl in H; try contradiction.
  destruct H as [<-|H]; [exists c; simpl; auto|].
  destruct (IH vs H) as (c' & Hin & Hm). exists c'. split; [right; exact Hin|exact Hm].
Qed.

Lemma chunk_text_filename (tc : TextChunker) (text fn : pystr) (c : Chunk) :
  In c (chunk_text tc text (Some {[ "filename" := PStr fn ]})) ->
  c_metadata c !! "filename" = Some (PStr fn).
Proof.
  intros H. apply list_elem_of_In, list_elem_of_lookup in H as [i Hi].
  rewrite (chunk_text_lookup _ _ _ _ _ Hi).
  rewrite chunk_metadata_other by discriminate. simpl.
  apply lookup_singleton_eq.
Qed.

(** X23: when the upload body succeeds it reports as [chunk_count] the
    number of chunks [get_chunk_count] predicts, at least one; the store
    grows by that many records, all tagged with the uploaded file name,
    and the snapshot at [<store_path>/faiss_index] is the store now in
    memory. *)
Theorem index_text_persists (embed : pystr -> option (list Q)) (tc : TextChunker)
    (fn text : pystr) (w w' : World) (n : nat) :
  index_text embed tc fn text w = (inr (inr n), w') ->
  n = get_chunk_count tc text /\ (0 < n)%nat /\
  get_store_size w' = (get_store_size w + n)%nat /\
  exists st, vector_store (mgr w') = Some st /\
    disk w' !! path_join (store_path (mgr w')) faiss_index_default = Some (Snapshot st) /\
    Forall (fun r => vr_metadata r !! "filename" = Some (PStr fn))
      (drop (get_store_size w) (fs_records st)).
Proof.
  unfold index_text. destruct (is_blank text) eqn:Hb; [unfold ret; discriminate|].
  destruct (chunk_text tc text (Some {[ "filename" := PStr fn ]})) as [|c0 cs] eqn:Hc;
    [unfold ret; discriminate|].
  unfold bind.
  destruct (add_documents_to_store embed (c0 :: cs) w) as [[e|n1] w1] eqn:Ha;
    [discriminate|].
  destruct (save_vector_store faiss_index_default w1) as [[e|p] w2] eqn:Hs;
    [discriminate|].
  unfold ret. intros H. injection H as <- <-.
  destruct (add_documents_effect embed _ w w1 n1 Ha) as (Hn & _ & _ & _ & Hcase).
  pose proof (add_documents_size embed _ w w1 n1 Ha) as Hsz.
  destruct (save_effect _ _ _ _ Hs) as (-> & Hm & st & Hv & Hdisk).
  assert (Hlen : length (chunk_text tc text (Some {[ "filename" := PStr fn ]}))
                 = get_chunk_count tc text)
    by (unfold chunk_text, get_chunk_count; rewrite Hb; apply build_chunks_length).
  rewrite Hc in Hlen.
  assert (Hg : get_store_size w2 = get_store_size w1)
    by (unfold get_store_size; rewrite Hm; reflexivity).
  split; [rewrite Hn; exact Hlen|]. split; [rewrite Hn; simpl; lia|].
  split; [rewrite Hg; exact Hsz|].
  exists st. rewrite Hm. split; [exact Hv|].
  split; [rewrite Hdisk; apply lookup_insert_eq|].
  destruct Hcase as [[Hnil _]|(vs & st' & _ & Hv' & Hr & _)]; [discriminate|].
  rewrite Hv in Hv'. injection Hv' as <-. rewrite Hr.
  replace (get_store_size w) with
    (length (match vector_store (mgr w) with Some st0 => fs_records st0 | None => [] end))
    by (unfold get_store_size; destruct (vector_store (mgr w)); reflexivity).
  rewrite drop_app_length. apply Forall_forall. intros r Hr'.
  apply list_elem_of_In in Hr'. destruct (to_records_meta _ _ _ Hr') as (c & Hc' & ->).
  apply (chunk_text_filename tc text). rewrite Hc. exact Hc'.
Qed.

Definition sample_upload : (exn + (pystr + nat)) * World :=
  index_text const_embed sample_tc (S_ "a.txt") sample_text start_world.

Lemma index_text_persists_witness :
  index_text const_embed sample_tc (S_ "a.txt") sample_text start_world =
    (inr (inr 1%nat), snd sample_upload) /\
  get_store_size (snd sample_upload) = 1%nat.
Proof.
  assert (H : index_text const_embed sample_tc (S_ "a.txt") sample_text start_world =
    (inr (inr 1%nat), snd sample_upload)) by (vm_compute; reflexivity).
  split; [exact H|].
  destruct (index_text_persists const_embed sample_tc (S_ "a.txt") sample_text
              start_world _ 1%nat H) as (_ & _ & Hs & _).
  rewrite Hs. reflexivity.
Defined.

(** X24: in any reachable world with an empty store, a non-blank query
    is answered with the fixed no-documents answer, confidence 0.0 and
    [chunks_retrieved = 0], and the world is unchanged. *)
Theorem query_empty_store (embed : pystr -> option (list Q))
    (llm : list message -> llm_outcome) (query : pystr) (top_k : option Z) (w : World) :
  reachable embed w -> get_store_size w = 0%nat -> py_strip query <> [] ->
  query_documents embed llm query top_k w =
    (inr (inr ({| answer := no_documents_answer; sources := []; confidence := 0%Q |}, 0%nat)), w).
Proof.
  intros Hr Hz Hq. destruct (reachable_inv embed w Hr) as [Hs _].
  assert (Hv : vector_store (mgr w) = None).
  { unfold get_store_size in Hz. destruct (vector_store (mgr w)) as [st|]; [|reflexivity].
    exfalso. apply (Hs st eq_refl). apply length_zero_iff_nil, Hz. }
  unfold query_documents. destruct (py_strip query) as [|c r]; [congruence|].
  unfold search_similar_documents, bind, get_mgr. rewrite Hv. reflexivity.
Qed.

Lemma query_empty_store_witness :
  reachable const_embed start_world /\ get_store_size start_world = 0%nat /\
  py_strip (S_ "what is rag?") <> [] /\
  query_documents const_embed failing_llm (S_ "what is rag?") None start_world =
    (inr (inr ({| answer := no_documents_answer; sources := []; confidence := 0%Q |}, 0%nat)),
     start_world).
Proof.
  assert (Hr : reachable const_embed start_world) by apply R_init.
  assert (Hz : get_store_size start_world = 0%nat) by reflexivity.
  assert (Hq : py_strip (S_ "what is rag?") <> []) by (vm_compute; discriminate).
  split; [exact Hr|]. split; [exact Hz|]. split; [exact Hq|].
  exact (query_empty_store const_embed failing_llm (S_ "what is rag?") None start_world
           Hr Hz Hq).
Defined.

(** X25: [query_documents] never changes the store or the disk; a blank
    query is rejected; and [chunks_retrieved] is at most the store size
    and at most the requested [top_k] (3 when absent or 0). *)
Theorem query_documents_bounds (embed : pystr -> option (list Q))
    (llm : list message -> llm_outcome) (query : pystr) (top_k : option Z)
    (w w' : World) (res : exn + (pystr + (Response * nat))) :
  query_documents embed llm query top_k w = (res, w') ->
  w' = w /\
  (py_strip query = [] -> res = inr (inl (S_ "Query cannot be empty"))) /\
  (forall r n, res = inr (inr (r, n)) ->
     (n <= get_store_size w)%nat /\
     (n <= Z.to_nat (int_or (Some (match top_k with None => Config_TOP_K_RESULTS
                                                   | Some k => k end))
                            Config_TOP_K_RESULTS))%nat).
Proof.
  unfold query_documents. destruct (py_strip query) as [|c0 q'] eqn:Hq.
  - unfold ret. intros H. injection H as <- <-.
    split; [reflexivity|]. split; [reflexivity|]. intros r n H. discriminate.
  - unfold bind.
    set (k := match top_k with None => Config_TOP_K_RESULTS | Some k => k end).
    pose proof (search_state embed (c0 :: q') (Some k) w) as Hst.
    destruct (search_similar_documents embed (c0 :: q') (Some k) w) as [[e|rs] w1] eqn:Hs;
      simpl in Hst; subst w1.
    + intros H. injection H as <- <-. split; [reflexivity|].
      split; [discriminate|]. intros r n H. discriminate.
    + destruct (search_count embed _ _ w w rs Hs) as [Hc1 Hc2].
      destruct (snd (generate_answer llm (c0 :: q') rs)) as [e|result];
        unfold raise, ret; intros H; injection H as <- <-.
      * split; [reflexivity|]. split; [discriminate|]. intros r n H. discriminate.
      * split; [reflexivity|]. split; [discriminate|]. intros r n H.
        injection H as <- <-. split; [exact Hc1|exact Hc2].
Qed.

Lemma query_documents_bounds_witness :
  query_documents const_embed answering_llm (S_ "hello") (Some 3) one_record_world =
    (fst (query_documents const_embed answering_llm (S_ "hello") (Some 3) one_record_world),
     one_record_world).
Proof.
  assert (H : query_documents const_embed answering_llm (S_ "hello") (Some 3) one_record_world =
    (fst (query_documents const_embed answering_llm (S_ "hello") (Some 3) one_record_world),
     snd (query_documents const_embed answering_llm (S_ "hello") (Some 3) one_record_world)))
    by (destruct (query_documents _ _ _ _ _); reflexivity).
  pose proof (proj1 (query_documents_bounds const_embed answering_llm (S_ "hello") (Some 3)
                       one_record_world _ _ H)) as Hw.
  rewrite H at 1. rewrite Hw. reflexivity.
Defined.

(* ------------------------------------------------------------------ *)
(** ** Chunk sizes *)
(* ------------------------------------------------------------------ *)

Lemma join_nil_concat (l : list pystr) : join [] l = concat l.
Proof.
  induction l as [|x r IH]; [reflexivity|].
  destruct r as [|y r']; simpl; [rewrite app_nil_r; reflexivity|].
  simpl in IH. rewrite IH. reflexivity.
Qed.

Lemma lstrip_length_le (s : pystr) : (length (lstrip s) <= length s)%nat.
Proof.
  induction s as [|c r IH]; simpl; [lia|]. destruct (is_space c); simpl; lia.
Qed.

Lemma py_strip_length_le (s : pystr) : (length (py_strip s) <= length s)%nat.
Proof.
  unfold py_strip. rewrite length_rev.
  etransitivity; [apply lstrip_length_le|]. rewrite length_rev. apply lstrip_length_le.
Qed.

Lemma join_docs_bound (cur : list pystr) (doc : pystr) :
  join_docs cur [] = Some doc -> zlen doc <= zlen (concat cur).
Proof.
  unfold join_docs. rewrite join_nil_concat.
  destruct (py_strip (concat cur)) as [|c r] eqn:E; [discriminate|].
  intros H. injection H as <-. rewrite <- E. unfold zlen.
  apply Nat2Z.inj_le, py_strip_length_le.
Qed.

Lemma zlen_concat_app (l : list pystr) (d : pystr) :
  zlen (concat (l ++ [d])) = zlen (concat l) + zlen d.
Proof. unfold zlen. rewrite concat_app. simpl. rewrite app_nil_r, length_app. lia. Qed.

Lemma sep_len_nil : sep_len [] = 0.
Proof. reflexivity. Qed.

(** With the empty separator [_merge_splits] uses, the inner [while]
    leaves a window whose length is the running total and which has room
    for the next piece, unless it is empty. *)
Lemma pop_front_room (cs ov : Z) (cur : list pystr) (total len_ : Z) :
  total = zlen (concat cur) ->
  let '(c, t) := pop_front cs ov [] cur total len_ in
  t = zlen (concat c) /\ (t + len_ <= cs \/ t = 0).
Proof.
  revert total. induction cur as [|d0 rest IH]; intros total Ht; simpl.
  - split; [exact Ht|]. right. exact Ht.
  - rewrite sep_len_nil.
    destruct ((total >? ov) || ((total + len_ + 0 >? cs) && (total >? 0))) eqn:E.
    + apply IH. rewrite Ht. unfold zlen. simpl. rewrite length_app.
      destruct (1 <? S (length rest))%nat; lia.
    + split; [exact Ht|].
      apply orb_false_iff in E as [_ E]. apply andb_false_iff in E as [E|E].
      * left. rewrite Z.gtb_ltb in E; apply Z.ltb_ge in E. lia.
      * right. rewrite Z.gtb_ltb in E; apply Z.ltb_ge in E. pose proof (zlen_nonneg (concat (d0 :: rest))).
        lia.
Qed.

Lemma merge_loop_bound (cs ov : Z) (splits docs cur : list pystr) (total : Z) :
  Forall (fun g => zlen g < cs) splits ->
  Forall (fun d => zlen d <= cs) docs ->
  total = zlen (concat cur) -> total <= cs ->
  Forall (fun d => zlen d <= cs) (merge_loop cs ov [] splits docs cur total).
Proof.
  assert (Hj : forall ds cr, Forall (fun d => zlen d <= cs) ds -> zlen (concat cr) <= cs ->
            Forall (fun d => zlen d <= cs) (match join_docs cr [] with
                                           | Some doc => ds ++ [doc] | None => ds end)).
  { intros ds cr Hd Hc. destruct (join_docs cr []) as [t|] eqn:E; [|exact Hd].
    apply Forall_app. split; [exact Hd|]. constructor; [|constructor].
    pose proof (join_docs_bound _ _ E). lia. }
  revert docs cur total. induction splits as [|d rest IH]; intros docs cur total Hs Hd Ht Hle.
  - simpl. apply Hj; [exact Hd|lia].
  - inversion Hs as [|? ? Hd0 Hrest]; subst. simpl. rewrite sep_len_nil.
    assert (Hlen : forall c t, t = zlen (concat c) -> t + zlen d <= cs ->
              t + zlen d + (if (1 <? length (c ++ [d]))%nat then 0 else 0) =
                zlen (concat (c ++ [d])) /\
              t + zlen d + (if (1 <? length (c ++ [d]))%nat then 0 else 0) <= cs).
    { intros c t -> H. rewrite zlen_concat_app.
      destruct (1 <? length (c ++ [d]))%nat; lia. }
    destruct (zlen (concat cur) + zlen d + (match cur with [] => 0 | _ => 0 end) >? cs) eqn:E.
    + destruct cur as [|c0 cr].
      * simpl in *. destruct (Hlen [] 0 eq_refl) as [H1 H2]; [lia|].
        apply IH; assumption.
      * pose proof (pop_front_room cs ov (c0 :: cr) (zlen (concat (c0 :: cr))) (zlen d) eq_refl)
          as Hp.
        destruct (pop_front cs ov [] (c0 :: cr) (zlen (concat (c0 :: cr))) (zlen d))
          as [c t] eqn:Ep.
        destruct Hp as [Htc Hroom].
        destruct (Hlen c t Htc) as [H1 H2]; [destruct Hroom; lia|].
        apply IH; [exact Hrest|apply Hj; [exact Hd|lia]|exact H1|exact H2].
    + rewrite Z.gtb_ltb in E; apply Z.ltb_ge in E.
      destruct (Hlen cur (zlen (concat cur)) eq_refl) as [H1 H2];
        [destruct cur; lia|].
      apply IH; assumption.
Qed.

Lemma merge_splits_bound (cs ov : Z) (splits : list pystr) :
  Forall (fun g => zlen g < cs) splits ->
  Forall (fun d => zlen d <= cs) (merge_splits cs ov [] splits).
Proof.
  intros Hs. unfold merge_splits. destruct splits as [|s0 r]; [simpl; constructor|].
  apply merge_loop_bound; [exact Hs|constructor|reflexivity|].
  inversion Hs; subst. simpl. unfold zlen in *. simpl. lia.
Qed.

Lemma process_splits_bound (cs ov : Z) (recur : option (pystr -> list pystr))
    (splits good : list pystr) :
  Forall (fun g => zlen g < cs) good ->
  (forall s, In s splits -> cs <= zlen s ->
     Forall (fun d => zlen d <= cs) (match recur with None => [s] | Some f => f s end)) ->
  Forall (fun d => zlen d <= cs) (process_splits cs ov recur splits good).
Proof.
  assert (Hm : forall gs, Forall (fun g => zlen g < cs) gs ->
            Forall (fun d => zlen d <= cs)
              (match gs with [] => [] | _ => merge_splits cs ov [] gs end)).
  { intros gs Hg. destruct gs; [constructor|]. apply merge_splits_bound, Hg. }
  revert good. induction splits as [|s rest IH]; intros good Hg Hs; simpl.
  - apply Hm, Hg.
  - destruct (zlen s <? cs) eqn:E.
    + apply Z.ltb_lt in E. apply IH.
      * apply Forall_app. split; [exact Hg|]. constructor; [exact E|constructor].
      * intros s' Hin. apply Hs. right. exact Hin.
    + apply Z.ltb_ge in E. apply Forall_app. split; [apply Hm, Hg|].
      apply Forall_app. split; [apply Hs; [left; reflexivity|exact E]|].
      apply IH; [constructor|]. intros s' Hin. apply Hs. right. exact Hin.
Qed.

Lemma split_rec_bound (cs ov : Z) (last_sep : pystr) (seps : list pystr) (text : pystr) :
  1 <= cs -> In [] seps ->
  Forall (fun d => zlen d <= cs) (split_rec cs ov last_sep seps text).
Proof.
  intros H1. revert text. induction seps as [|s rest IH]; intros text Hin.
  - destruct Hin.
  - destruct s as [|a s'].
    + simpl. apply process_splits_bound; [constructor|].
      intros s Hs Hle. destruct (split_on_empty_singletons text s Hs) as [c ->].
      constructor; [|constructor]. exact H1.
    + assert (Hin' : In [] rest) by (destruct Hin as [H|H]; [discriminate|exact H]).
      simpl. destruct (contains (a :: s') text).
      * apply process_splits_bound; [constructor|]. intros s _ _.
        destruct rest as [|r0 rest']; [destruct Hin'|]. apply IH, Hin'.
      * apply IH, Hin'.
Qed.

Lemma make_text_chunker_size_pos (cs ov : option Z) (tc : TextChunker) :
  make_text_chunker cs ov = inr tc -> 0 < chunk_size tc.
Proof.
  intros H. unfold make_text_chunker in H. cbv zeta in H.
  destruct (int_or cs Config_CHUNK_SIZE <=? 0) eqn:E1; [discriminate|].
  destruct (int_or ov Config_CHUNK_OVERLAP <? 0); [discriminate|].
  destruct (int_or ov Config_CHUNK_OVERLAP >? int_or cs Config_CHUNK_SIZE); [discriminate|].
  injection H as <-. simpl. apply Z.leb_gt in E1. exact E1.
Qed.

(** X26: every chunk a constructed [TextChunker] returns has at most
    [chunk_size] characters: pieces shorter than the size are merged into
    windows that never outgrow it, longer ones are split again down to
    single characters. *)
Theorem chunk_text_within_size (cs ov : option Z) (tc : TextChunker) (text : pystr)
    (md : option metadata) (c : Chunk) :
  make_text_chunker cs ov = inr tc ->
  In c (chunk_text tc text md) ->
  (length (c_text c) <= Z.to_nat (chunk_size tc))%nat.
Proof.
  intros Hmk Hc. pose proof (make_text_chunker_size_pos cs ov tc Hmk) as Hpos.
  apply in_chunk_text in Hc. unfold split_text in Hc.
  assert (Hb := split_rec_bound (rs_chunk_size (text_splitter tc))
                  (rs_chunk_overlap (text_splitter tc))
                  (last_or_empty (rs_separators (text_splitter tc)))
                  (rs_separators (text_splitter tc)) text
                  ltac:(simpl; lia) ltac:(simpl; tauto)).
  rewrite Forall_forall in Hb. specialize (Hb _ (proj2 (list_elem_of_In _ _) Hc)).
  unfold zlen in Hb. simpl in Hb. lia.
Qed.

Definition small_tc : TextChunker := {| chunk_size := 100; chunk_overlap := 20 |}.

Lemma chunk_text_within_size_witness :
  make_text_chunker (Some 100) (Some 20) = inr small_tc /\
  length (chunk_text small_tc long_text None) = 3%nat /\
  length (c_text (nth 0 (chunk_text small_tc long_text None) sample_chunk)) = 100%nat /\
  (length (c_text (nth 0 (chunk_text small_tc long_text None) sample_chunk)) <= 100)%nat.
Proof.
  assert (Hm : make_text_chunker (Some 100) (Some 20) = inr small_tc) by reflexivity.
  assert (Hin : In (nth 0 (chunk_text small_tc long_text None) sample_chunk)
                   (chunk_text small_tc long_text None))
    by (apply nth_In; vm_compute; lia).
  split; [exact Hm|]. split; [vm_compute; reflexivity|]. split; [vm_compute; reflexivity|].
  exact (chunk_text_within_size (Some 100) (Some 20) small_tc long_text None _ Hm Hin).
Defined.

(* ------------------------------------------------------------------ *)
(** ** Validation against dispatch *)
(* ------------------------------------------------------------------ *)

Lemma splitext_named (d n e : pystr) :
  ~ In slash n -> (exists c, In c n /\ c <> dot) -> ~ In dot e -> ~ In slash e ->
  splitext (d ++ slash :: n ++ dot :: e) = (d ++ slash :: n, dot :: e).
Proof.
  intros Hn [c0 [Hc0 Hc0d]] He Hes. unfold splitext. cbv zeta.
  rewrite rfind_last.
  2:{ intros H. apply in_app_or in H as [H|[H|H]];
      [exact (Hn H)|exact (dot_not_slash H)|exact (Hes H)]. }
  replace (d ++ slash :: n ++ dot :: e) with ((d ++ slash :: n) ++ dot :: e)
    by (rewrite <- app_assoc; reflexivity).
  rewrite rfind_last by exact He. rewrite length_app. simpl length.
  destruct (Z.of_nat (length d) <? Z.of_nat (length d + S (length n))) eqn:Elt;
    [|apply Z.ltb_ge in Elt; lia].
  replace (Z.to_nat (Z.of_nat (length d) + 1)) with (length (d ++ [slash]))
    by (rewrite length_app; simpl; lia).
  rewrite Nat2Z.id.
  replace (d ++ slash :: n) with ((d ++ [slash]) ++ n) by (rewrite <- app_assoc; reflexivity).
  unfold slice. rewrite <- app_assoc, drop_app_length.
  replace (length d + S (length n) - length (d ++ [slash]))%nat with (length n)
    by (rewrite length_app; simpl; lia).
  rewrite take_app_length.
  replace (existsb _ n) with true.
  2:{ symmetry. apply existsb_exists. exists c0. split; [exact Hc0|].
      destruct (ascii_dec c0 dot); [contradiction|reflexivity]. }
  replace (length d + S (length n))%nat with (length ((d ++ [slash]) ++ n))
    by (rewrite !length_app; simpl; lia).
  rewrite app_assoc, take_app_length, drop_app_length. reflexivity.
Qed.

Lemma py_lower_dot (e : pystr) : py_lower (dot :: e) = dot :: py_lower e.
Proof. reflexivity. Qed.

Lemma dot_prefix_eq (a b : pystr) :
  bool_decide (dot :: a = dot :: b) = bool_decide (a = b).
Proof.
  apply bool_decide_ext. split; [intros H; injection H; auto|intros ->; reflexivity].
Qed.

(** X27: for a file [name.ext] kept in a folder, with a name that has a
    character other than a dot and an extension without dot or slash,
    [validate_file_extension(name.ext, Config.ALLOWED_EXTENSIONS)] accepts
    exactly the files [process_document(folder/name.ext)] hands to an
    extractor; on every other such file [process_document] raises
    [ValueError] with the lower-cased extension. *)
Theorem upload_validation_matches_dispatch (fs : FileSystem) (d n e : pystr) :
  ~ In slash n -> (exists c, In c n /\ c <> dot) -> ~ In dot e -> ~ In slash e ->
  path_exists fs (d ++ slash :: n ++ dot :: e) = true ->
  let p := d ++ slash :: n ++ dot :: e in
  (validate_file_extension (n ++ dot :: e) Config_ALLOWED_EXTENSIONS = true ->
     process_document fs p = extract_text_from_pdf fs p \/
     process_document fs p = extract_text_from_docx fs p \/
     process_document fs p = extract_text_from_txt fs p) /\
  (validate_file_extension (n ++ dot :: e) Config_ALLOWED_EXTENSIONS = false ->
     process_document fs p =
       inl (Raised (ValueError (S_ "Unsupported file format: " ++ dot :: py_lower e)))).
Proof.
  intros Hn Hc He Hes Hex p.
  rewrite (validate_after_last_dot n e _ He).
  assert (Hp : process_document fs p =
    if bool_decide (py_lower e = S_ "pdf") then extract_text_from_pdf fs p
    else if bool_decide (py_lower e = S_ "docx") then extract_text_from_docx fs p
    else if bool_decide (py_lower e = S_ "txt") then extract_text_from_txt fs p
    else inl (Raised (ValueError (S_ "Unsupported file format: " ++ dot :: py_lower e)))).
  { unfold process_document. unfold p. rewrite Hex. simpl negb. cbv iota.
    rewrite (splitext_named d n e Hn Hc He Hes). simpl snd.
    change (S_ ".pdf") with (dot :: S_ "pdf").
    change (S_ ".docx") with (dot :: S_ "docx").
    change (S_ ".txt") with (dot :: S_ "txt").
    rewrite py_lower_dot, !dot_prefix_eq. reflexivity. }
  rewrite Hp. unfold Config_ALLOWED_EXTENSIONS.
  destruct (decide (py_lower e = S_ "pdf")) as [E1|E1];
    [rewrite (bool_decide_eq_true_2 _ E1); split; [intros _; left; reflexivity|];
     rewrite bool_decide_eq_true_2; [discriminate|rewrite E1; left]|].
  rewrite (bool_decide_eq_false_2 _ E1).
  destruct (decide (py_lower e = S_ "docx")) as [E2|E2];
    [rewrite (bool_decide_eq_true_2 _ E2); split; [intros _; right; left; reflexivity|];
     rewrite bool_decide_eq_true_2; [discriminate|rewrite E2; right; left]|].
  rewrite (bool_decide_eq_false_2 _ E2).
  destruct (decide (py_lower e = S_ "txt")) as [E3|E3];
    [rewrite (bool_decide_eq_true_2 _ E3); split; [intros _; right; right; reflexivity|];
     rewrite bool_decide_eq_true_2; [discriminate|rewrite E3; right; right; left]|].
  rewrite (bool_decide_eq_false_2 _ E3).
  split; [|reflexivity].
  rewrite bool_decide_eq_false_2; [discriminate|].
  rewrite !elem_of_cons, elem_of_nil. tauto.
Qed.

Definition docx_fs : FileSystem :=
  {| path_exists := fun _ => true;
     read_file := fun _ => inr (S_ "notes");
     pdf_pages := fun _ => inr [];
     docx_paragraphs := fun _ => inr [S_ "Quarterly report"; S_ "Revenue grew."] |}.

Lemma upload_validation_matches_dispatch_witness :
  validate_file_extension (S_ "report.DOCX") Config_ALLOWED_EXTENSIONS = true /\
  process_document docx_fs (S_ "uploads/report.DOCX") =
    extract_text_from_docx docx_fs (S_ "uploads/report.DOCX") /\
  process_document docx_fs (S_ "uploads/report.DOCX") =
    inr (S_ "Quarterly report" ++ nl :: S_ "Revenue grew.").
Proof.
  assert (Hn : ~ In slash (S_ "report")) by (simpl; intuition discriminate).
  assert (Hc : exists c, In c (S_ "report") /\ c <> dot)
    by (exists "r"%char; split; [left; reflexivity|discriminate]).
  assert (He : ~ In dot (S_ "DOCX")) by (simpl; intuition discriminate).
  assert (Hes : ~ In slash (S_ "DOCX")) by (simpl; intuition discriminate).
  assert (Hx : path_exists docx_fs (S_ "uploads" ++ slash :: S_ "report" ++ dot :: S_ "DOCX")
               = true) by reflexivity.
  assert (Hv : validate_file_extension (S_ "report" ++ dot :: S_ "DOCX")
                 Config_ALLOWED_EXTENSIONS = true) by (vm_compute; reflexivity).
  destruct (upload_validation_matches_dispatch docx_fs (S_ "uploads") (S_ "report") (S_ "DOCX")
              Hn Hc He Hes Hx) as [Ht _].
  change (S_ "report.DOCX") with (S_ "report" ++ dot :: S_ "DOCX").
  change (S_ "uploads/report.DOCX") with (S_ "uploads" ++ slash :: S_ "report" ++ dot :: S_ "DOCX").
  split; [exact Hv|].
  destruct (Ht Hv) as [H|[H|H]];
    [exfalso; revert H; vm_compute; discriminate| |exfalso; revert H; vm_compute; discriminate].
  split; [exact H|]. rewrite H. vm_compute. reflexivity.
Defined.
